(** * Sheet manager and action sheet: a shallow embedding

    The development follows [src/SheetManager.tsx] (the registry, the
    instance directory kept in the provider's [sheets] state, the
    [sheetPromises] map, [openSheet], [closeSheet] and the static
    [SheetManager] API) and [src/ActionSheet.tsx] (the presentation unit
    with its [open], [close], [isOpen] handle and its pan responder).

    React state is modelled the way the hooks behave: a state variable has
    the value of the last committed render, which is what every closure
    created by that render reads; a call to a setter queues an update, and
    the queue is applied by the next render.  A render is an explicit step,
    so both a runtime that batches updates and one that re-renders right
    after every setter are covered.

    The plain objects used as dictionaries ([registeredSheets], [sheets],
    [sheetPromises]) are finite maps of their own entries, read the way
    [obj[id]] reads them: an id without own entry that names a property of
    [Object.prototype] yields that property.  Ref objects and promises are
    named by numbers, and what they hold lives in the world.  Numbers are
    binary64 floating-point values. *)

From Stdlib Require Import ZArith Floats.SpecFloat.
From stdpp Require Import gmap strings list fin_maps.

Local Open Scope string_scope.
Local Open Scope list_scope.

(** ** Values passed through the API

    Payloads and results are opaque to the manager.  Only their truthiness
    is ever inspected ([props || {}]). *)

Inductive jsval : Type :=
  | JUndefined
  | JNull
  | JBool (b : bool)
  | JNum (n : Z)
  | JStr (s : string)
  | JObj (fields : jsfields)
with jsfields : Type :=
  | NoFields
  | Field (key : string) (value : jsval) (rest : jsfields).

Definition truthy (v : jsval) : bool :=
  match v with
  | JUndefined | JNull => false
  | JBool b => b
  | JNum n => negb (Z.eqb n 0)
  | JStr s => negb (String.eqb s "")
  | JObj _ => true
  end.

(** [a || b] on values. *)
Definition js_or (a b : jsval) : jsval := if truthy a then a else b.

(** The literal [{}]. *)
Definition empty_object : jsval := JObj NoFields.

(** A boolean where a value is expected. *)
Coercion JBool : bool >-> jsval.

(** The [TypeError] the runtime throws when what is called is not a
    function. *)
Definition type_error : jsval := JObj (Field "name" (JStr "TypeError") NoFields).

(** ** Plain objects as dictionaries

    [registeredSheets], [sheets] and [sheetPromises] are object literals,
    so [obj[id]] for an id without own entry is the property of that name of
    [Object.prototype], when there is one: a function (for [__proto__], the
    prototype itself), which is truthy and has none of the properties the
    code goes on to read.  Assignment and [delete] act on own entries; that
    an assignment to [__proto__] replaces the prototype instead is not
    modelled. *)
Definition inherited (i : string) : bool :=
  bool_decide (i ∈ ["constructor"; "hasOwnProperty"; "isPrototypeOf";
                    "propertyIsEnumerable"; "toLocaleString"; "toString";
                    "valueOf"; "__proto__"; "__defineGetter__";
                    "__defineSetter__"; "__lookupGetter__"; "__lookupSetter__"]).

(** ** Numbers

    A JavaScript number is an IEEE 754 binary64 value; the operations are
    those of the specification of floating-point arithmetic of the
    Standard Library at precision 53 and maximal exponent 1024. *)
Definition number : Type := spec_float.

Definition prec : Z := 53.
Definition emax : Z := 1024.

(** An integer literal. *)
Definition integer (z : Z) : number := binary_normalize prec emax z 0 false.

(** A decimal literal [n / 10^k]: the binary64 value nearest to it. *)
Definition decimal (n : Z) (k : nat) : number :=
  SFdiv prec emax (integer n) (integer (10 ^ Z.of_nat k)).

(** [a * b], [a > b] and [a === b] on numbers. *)
Definition times (a b : number) : number := SFmul prec emax a b.
Definition greater (a b : number) : bool := SFltb b a.

(** ** The presentation unit, [ActionSheet] *)

Module ActionSheet.

(** A queued call of [setIsVisible] or [setIsClosing]. *)
Inductive state_update : Type :=
  | SetIsVisible (b : bool)
  | SetIsClosing (b : bool).

(** The two [Animated.parallel] animations a unit starts; the completion
    callback of each is the one given to [start]. *)
Inductive animation : Type :=
  | OpenAnimation
  | CloseAnimation.

#[export] Instance state_update_eq_dec : EqDecision state_update.
Proof. solve_decision. Defined.

#[export] Instance animation_eq_dec : EqDecision animation.
Proof. solve_decision. Defined.

(** [isVisible] and [isClosing] are the values of the two [useState]
    variables in the committed render; [stateUpdates] are the setter calls
    made since; [animations] are the animations started and not yet
    completed; [onOpenCalls] and [onCloseCalls] count the invocations of
    the two callbacks. *)
Record t : Type := Build {
  isVisible : bool;
  isClosing : bool;
  stateUpdates : list state_update;
  animations : list animation;
  onOpenCalls : nat;
  onCloseCalls : nat;
}.

#[export] Instance t_eq_dec : EqDecision t.
Proof. solve_decision. Defined.

(** [useState(false)] twice, nothing queued, nothing running. *)
Definition initial : t := Build false false [] [] 0 0.

Definition queue (us : list state_update) (s : t) : t :=
  Build (isVisible s) (isClosing s) (stateUpdates s ++ us)
        (animations s) (onOpenCalls s) (onCloseCalls s).

Definition start (a : animation) (s : t) : t :=
  Build (isVisible s) (isClosing s) (stateUpdates s)
        (animations s ++ [a]) (onOpenCalls s) (onCloseCalls s).

(** [close]: [if (!isVisible || isClosing) return;] then
    [setIsClosing(true)] and the closing animation. *)
Definition close (s : t) : t :=
  if negb (isVisible s) || isClosing s then s
  else start CloseAnimation (queue [SetIsClosing true] s).

(** [open]: [if (isVisible || isClosing) return;] then
    [setIsVisible(true)] and the opening animation. *)
Definition open (s : t) : t :=
  if isVisible s || isClosing s then s
  else start OpenAnimation (queue [SetIsVisible true] s).

(** [isOpen = () => isVisible && !isClosing]. *)
Definition isOpen (s : t) : bool := isVisible s && negb (isClosing s).

Definition apply_update (u : state_update) (vc : bool * bool) : bool * bool :=
  match u with
  | SetIsVisible b => (b, snd vc)
  | SetIsClosing b => (fst vc, b)
  end.

Definition apply_updates (us : list state_update) (vc : bool * bool) : bool * bool :=
  fold_left (fun acc u => apply_update u acc) us vc.

(** The next render: the queued updates become the state every closure
    of the handle reads from then on. *)
Definition commit (s : t) : t :=
  let vc := apply_updates (stateUpdates s) (isVisible s, isClosing s) in
  Build (fst vc) (snd vc) [] (animations s) (onOpenCalls s) (onCloseCalls s).

(** The callback given to [start]: [onOpen?.()] for the opening animation;
    [setIsVisible(false); setIsClosing(false); onClose?.()] for the
    closing one. *)
Definition completed (a : animation) (s : t) : t :=
  match a with
  | OpenAnimation =>
      Build (isVisible s) (isClosing s) (stateUpdates s) (animations s)
            (S (onOpenCalls s)) (onCloseCalls s)
  | CloseAnimation =>
      let s' := queue [SetIsVisible false; SetIsClosing false] s in
      Build (isVisible s') (isClosing s') (stateUpdates s') (animations s')
            (onOpenCalls s') (S (onCloseCalls s'))
  end.

(** The [n]-th running animation completes. *)
Definition finish (n : nat) (s : t) : t :=
  match animations s !! n with
  | None => s
  | Some a =>
      completed a
        (Build (isVisible s) (isClosing s) (stateUpdates s)
               (delete n (animations s)) (onOpenCalls s) (onCloseCalls s))
  end.

(** What can happen to a mounted unit. *)
Inductive event : Type :=
  | EvOpen
  | EvClose
  | EvCommit
  | EvFinish (n : nat).

Definition step (e : event) (s : t) : t :=
  match e with
  | EvOpen => open s
  | EvClose => close s
  | EvCommit => commit s
  | EvFinish n => finish n s
  end.

Definition run (es : list event) (s : t) : t :=
  fold_left (fun acc e => step e acc) es s.

(** [e] is the completion of a closing animation of [s]. *)
Definition finishes_close (e : event) (s : t) : bool :=
  match e with
  | EvFinish n =>
      match animations s !! n with
      | Some CloseAnimation => true
      | _ => false
      end
  | _ => false
  end.

(** No event of [es], run from [s], completes a closing animation. *)
Fixpoint close_running (es : list event) (s : t) : bool :=
  match es with
  | [] => true
  | e :: es' => negb (finishes_close e s) && close_running es' (step e s)
  end.

(** *** The pan responder *)

Record gestureState : Type := Gesture { dy : number; vy : number }.

Inductive release : Type :=
  | CallClose        (* [close()] *)
  | SpringToOpen.    (* [Animated.spring(translateY, {toValue: 0})] *)

(** [onPanResponderRelease]:
    [if (gestureState.dy > SCREEN_HEIGHT * 0.2 || gestureState.vy > 0.5)]. *)
Definition onPanResponderRelease (SCREEN_HEIGHT : number) (g : gestureState) : release :=
  if greater (dy g) (times SCREEN_HEIGHT (decimal 2 1)) || greater (vy g) (decimal 5 1)
  then CallClose
  else SpringToOpen.







(** *** Stacking

    [let sheetZIndexCounter = 99999] and, in the body of the component,
    [useRef(sheetZIndexCounter++).current]: every render of a unit
    increments the counter, and the unit keeps the value read by its mount
    render.  [sheetZIndex] lists the units in the order they mounted. *)
Record stacking : Type := Stacking {
  sheetZIndexCounter : N;
  sheetZIndex : list N;
}.

Definition no_sheets : stacking := Stacking 99999%N [].

Inductive sheet_render : Type :=
  | MountRender      (* the first render of a new unit *)
  | LaterRender.     (* another render of a mounted unit *)

Definition rendered (r : sheet_render) (z : stacking) : stacking :=
  match r with
  | MountRender =>
      Stacking (N.succ (sheetZIndexCounter z)) (sheetZIndex z ++ [sheetZIndexCounter z])
  | LaterRender => Stacking (N.succ (sheetZIndexCounter z)) (sheetZIndex z)
  end.

Definition renders (rs : list sheet_render) (z : stacking) : stacking :=
  fold_left (fun acc r => rendered r acc) rs z.

(** [zIndex: sheetZIndex + 10] of the container of the direct rendering. *)
Definition directContainerZIndex (sheetZIndex : N) : N := (sheetZIndex + 10)%N.

#[export] Instance event_eq_dec : EqDecision event.
Proof. solve_decision. Defined.

(** The calls of [open] and of [close] among the events. *)
Definition open_calls (es : list event) : nat :=
  length (filter (fun e => e = EvOpen) es).

Definition close_calls (es : list event) : nat :=
  length (filter (fun e => e = EvClose) es).

(** The running animations of each kind. *)
Definition opening (s : t) : nat :=
  length (filter (fun a => a = OpenAnimation) (animations s)).

Definition closing_animations (s : t) : nat :=
  length (filter (fun a => a = CloseAnimation) (animations s)).

End ActionSheet.

(** ** Promises, refs and handles *)

Inductive promise_state : Type :=
  | Pending
  | Resolved (value : jsval)
  | Rejected (reason : jsval).

(** The outcome of calling a method: it returns or it throws. *)
Inductive completion (A : Type) : Type :=
  | Normal (a : A)
  | Throw (error : jsval).
Arguments Normal {A} a.
Arguments Throw {A} error.

(** What [ref.current] holds when it is not [null]: the imperative handle
    of an [ActionSheet] of this library, or another object of type
    [ActionSheetRef], of which only whether [open] and [close] throw
    matters to the manager. *)
Inductive handle : Type :=
  | HSheet (s : ActionSheet.t)
  | HOther (open_throws close_throws : option jsval).

Definition call_open (h : handle) : completion handle :=
  match h with
  | HSheet s => Normal (HSheet (ActionSheet.open s))
  | HOther (Some e) _ => Throw e
  | HOther None _ => Normal h
  end.

Definition call_close (h : handle) : completion handle :=
  match h with
  | HSheet s => Normal (HSheet (ActionSheet.close s))
  | HOther _ (Some e) => Throw e
  | HOther _ None => Normal h
  end.

(** ** The instance directory *)

(** What the [ref] property of an entry holds: a [React.RefObject], named
    by its number, whose [current] lives in the heap of the world; or
    [undefined], when the entry was made from an inherited property. *)
Inductive reference : Type :=
  | RefObject (r : nat)
  | RefUndefined.

Coercion RefObject : nat >-> reference.

(** [ref?.current]: what the heap holds for the ref, nothing for
    [undefined]. *)
#[export] Instance reference_lookup : Lookup reference handle (gmap nat handle) :=
  fun r heap =>
    match r with
    | RefObject n => heap !! n
    | RefUndefined => None
    end.

(** The heap after the handle held by the ref has changed. *)
#[export] Instance reference_insert : Insert reference handle (gmap nat handle) :=
  fun r h heap =>
    match r with
    | RefObject n => <[n := h]> heap
    | RefUndefined => heap
    end.

(** [prev[id]?.ref === ref] for the ref object [r]. *)
Definition same_ref (a : reference) (r : nat) : bool :=
  match a with
  | RefObject n => Nat.eqb n r
  | RefUndefined => false
  end.

(** [interface SheetInstance].  [isOpen] is a boolean, or [undefined] when
    copied from an inherited property. *)
Record SheetInstance : Type := Instance {
  id : string;
  ref : reference;
  props : jsval;
  isOpen : jsval;
}.

(** The updater functions given to [setSheets], one constructor per call
    site.  [OpenUpdate] carries the identity that [React.createRef()] gives
    to the placeholder ref should the updater create one. *)
Inductive sheets_update : Type :=
  | RegisterUpdate (i : string) (r : nat)
  | UnregisterUpdate (i : string)
  | PropsUpdate (i : string) (p : jsval)
  | OpenUpdate (i : string) (p : jsval) (placeholder : nat)
  | CloseUpdate (i : string).

Section Updaters.

(** The process-wide [registeredSheets], read by the updater of
    [openSheet] when it runs. *)
Variable registeredSheets : gmap string nat.

(** Where [prev[id]] has no own entry and [id] names an inherited
    property, the property is truthy and its [ref], [props] and [isOpen]
    are [undefined]. *)
Definition apply_sheets_update (u : sheets_update)
    (prev : gmap string SheetInstance) : gmap string SheetInstance :=
  match u with
  | RegisterUpdate i r =>
      match prev !! i with
      | Some e =>
          if same_ref (ref e) r then prev
          else <[i := Instance i r (js_or (props e) empty_object)
                                  (js_or (isOpen e) false)]> prev
      | None => <[i := Instance i r empty_object false]> prev
      end
  | UnregisterUpdate i => delete i prev
  | PropsUpdate i p =>
      match prev !! i with
      | Some e => <[i := Instance i (ref e) p (isOpen e)]> prev
      | None =>
          if inherited i then <[i := Instance i RefUndefined p JUndefined]> prev
          else prev
      end
  | OpenUpdate i p placeholder =>
      match prev !! i with
      | Some e => <[i := Instance i (ref e) (js_or p empty_object) true]> prev
      | None =>
          if inherited i
          then <[i := Instance i RefUndefined (js_or p empty_object) true]> prev
          else
            match registeredSheets !! i with
            | Some _ => <[i := Instance i placeholder (js_or p empty_object) true]> prev
            | None => prev
            end
      end
  | CloseUpdate i =>
      match prev !! i with
      | Some e => <[i := Instance i (ref e) (props e) false]> prev
      | None =>
          if inherited i then <[i := Instance i RefUndefined JUndefined false]> prev
          else prev
      end
  end.

Definition apply_sheets_updates (us : list sheets_update)
    (prev : gmap string SheetInstance) : gmap string SheetInstance :=
  fold_left (fun acc u => apply_sheets_update u acc) us prev.

End Updaters.

(** ** The world *)

Inductive attempt : Type :=
  | FirstAttempt   (* the callback of [setTimeout(..., 50)] *)
  | Retry.         (* the callback of [setTimeout(..., 100)] inside it *)

(** A scheduled callback of [openSheet].  It closes over the [sheets] of
    the render that created [openSheet], over [id] and over [reject]. *)
Record timer : Type := Timer {
  delay : nat;
  stage : attempt;
  timer_id : string;
  timer_sheets : gmap string SheetInstance;
  timer_promise : nat;
}.

(** - [registeredSheets], [contextSheetOpener], [contextSheetCloser]: the
      module-level variables.  An opener or closer is [openSheet] or
      [closeSheet] as created by some render, that is, together with the
      [sheets] it closes over; [None] is [null].
    - [sheets], [sheetUpdates]: the provider's state and the [setSheets]
      calls not yet applied.
    - [sheetPromises]: the provider's map from id to a resolve/reject pair,
      the pair being named by its promise.
    - [promises], [nextPromise]: every promise created so far.
    - [refs], [nextRef]: [current] of every ref object; no entry is [null].
    - [timers]: the scheduled callbacks; [uncaught]: errors that escaped a
      callback. *)
Record world : Type := World {
  registeredSheets : gmap string nat;
  contextSheetOpener : option (gmap string SheetInstance);
  contextSheetCloser : option (gmap string SheetInstance);
  sheets : gmap string SheetInstance;
  sheetUpdates : list sheets_update;
  sheetPromises : gmap string nat;
  promises : gmap nat promise_state;
  nextPromise : nat;
  refs : gmap nat handle;
  nextRef : nat;
  timers : list timer;
  uncaught : list jsval;
}.

Definition initial : world :=
  World ∅ None None ∅ [] ∅ ∅ 0 ∅ 0 [] [].

Definition set_registeredSheets (x : gmap string nat) (w : world) : world :=
  World x (contextSheetOpener w) (contextSheetCloser w) (sheets w)
        (sheetUpdates w) (sheetPromises w) (promises w) (nextPromise w)
        (refs w) (nextRef w) (timers w) (uncaught w).

Definition setSheets (u : sheets_update) (w : world) : world :=
  World (registeredSheets w) (contextSheetOpener w) (contextSheetCloser w)
        (sheets w) (sheetUpdates w ++ [u]) (sheetPromises w) (promises w)
        (nextPromise w) (refs w) (nextRef w) (timers w) (uncaught w).

Definition set_sheetPromises (x : gmap string nat) (w : world) : world :=
  World (registeredSheets w) (contextSheetOpener w) (contextSheetCloser w)
        (sheets w) (sheetUpdates w) x (promises w) (nextPromise w)
        (refs w) (nextRef w) (timers w) (uncaught w).

Definition set_promises (x : gmap nat promise_state) (w : world) : world :=
  World (registeredSheets w) (contextSheetOpener w) (contextSheetCloser w)
        (sheets w) (sheetUpdates w) (sheetPromises w) x (nextPromise w)
        (refs w) (nextRef w) (timers w) (uncaught w).

Definition set_refs (x : gmap nat handle) (w : world) : world :=
  World (registeredSheets w) (contextSheetOpener w) (contextSheetCloser w)
        (sheets w) (sheetUpdates w) (sheetPromises w) (promises w)
        (nextPromise w) x (nextRef w) (timers w) (uncaught w).

Definition set_timers (x : list timer) (w : world) : world :=
  World (registeredSheets w) (contextSheetOpener w) (contextSheetCloser w)
        (sheets w) (sheetUpdates w) (sheetPromises w) (promises w)
        (nextPromise w) (refs w) (nextRef w) x (uncaught w).

Definition set_uncaught (x : list jsval) (w : world) : world :=
  World (registeredSheets w) (contextSheetOpener w) (contextSheetCloser w)
        (sheets w) (sheetUpdates w) (sheetPromises w) (promises w)
        (nextPromise w) (refs w) (nextRef w) (timers w) x.

(** [new Promise(...)] or [Promise.reject(...)]: a new promise in the
    given state. *)
Definition new_promise (st : promise_state) (w : world) : nat * world :=
  (nextPromise w,
   World (registeredSheets w) (contextSheetOpener w) (contextSheetCloser w)
         (sheets w) (sheetUpdates w) (sheetPromises w)
         (<[nextPromise w := st]> (promises w)) (S (nextPromise w))
         (refs w) (nextRef w) (timers w) (uncaught w)).

(** [React.createRef()] or [useRef(null)]: a new ref, [current] is [null]. *)
Definition new_ref (w : world) : nat * world :=
  (nextRef w,
   World (registeredSheets w) (contextSheetOpener w) (contextSheetCloser w)
         (sheets w) (sheetUpdates w) (sheetPromises w) (promises w)
         (nextPromise w) (refs w) (S (nextRef w)) (timers w) (uncaught w)).

(** [resolve(v)] or [reject(e)] of promise [p]: the first call settles the
    promise, later calls do nothing. *)
Definition settle (p : nat) (st : promise_state) (w : world) : world :=
  match promises w !! p with
  | Some Pending => set_promises (<[p := st]> (promises w)) w
  | _ => w
  end.

Definition resolve (p : nat) (v : jsval) : world -> world := settle p (Resolved v).
Definition reject (p : nat) (e : jsval) : world -> world := settle p (Rejected e).

(** [sheet?.ref?.current] for [sheet = snapshot[i]]. *)
Definition current_handle (snapshot : gmap string SheetInstance) (i : string)
    (w : world) : option (nat * handle) :=
  match snapshot !! i with
  | None => None
  | Some e =>
      match ref e with
      | RefObject r =>
          match refs w !! r with
          | None => None
          | Some h => Some (r, h)
          end
      | RefUndefined => None
      end
  end.

(** ** The provider's callbacks *)

(** The one-character string holding a double quote. *)
Definition quote : string := String (Ascii.ascii_of_nat 34) EmptyString.

(** [`Sheet with id "${id}" is not registered.`] *)
Definition not_registered (i : string) : string :=
  "Sheet with id " +:+ quote +:+ i +:+ quote +:+ " is not registered.".

(** [`Failed to open sheet "${id}". Ref is not available.`] *)
Definition ref_not_available (i : string) : string :=
  "Failed to open sheet " +:+ quote +:+ i +:+ quote +:+ ". Ref is not available.".

Definition provider_not_initialized : string := "SheetProvider not initialized".

Definition registerSheetInstance (i : string) (r : nat) : world -> world :=
  setSheets (RegisterUpdate i r).

Definition unregisterSheetInstance (i : string) : world -> world :=
  setSheets (UnregisterUpdate i).

Definition updateSheetProps (i : string) (p : jsval) : world -> world :=
  setSheets (PropsUpdate i p).

(** [openSheet], as created by a render whose state was [snapshot].  The
    result is the promise it returns and the world after the executor of
    [new Promise] has run.  The guard [!sheets[id] && !registeredSheets[id]]
    reads two plain objects, so it lets through an [id] with an own entry
    in either and an [id] that names an inherited property. *)
Definition openSheet (snapshot : gmap string SheetInstance) (i : string)
    (p : jsval) (w : world) : nat * world :=
  let (pr, w1) := new_promise Pending w in
  match snapshot !! i, registeredSheets w1 !! i, inherited i with
  | None, None, false => (pr, reject pr (JStr (not_registered i)) w1)
  | _, _, _ =>
      let w2 := set_sheetPromises (<[i := pr]> (sheetPromises w1)) w1 in
      let (r, w3) := new_ref w2 in
      let w4 := setSheets (OpenUpdate i p r) w3 in
      (pr, set_timers (timers w4 ++ [Timer 50 FirstAttempt i snapshot pr]) w4)
  end.

(** The body of the [try] of [closeSheet] up to and including the call of
    [close] on the handle. *)
Definition close_handle (snapshot : gmap string SheetInstance) (i : string)
    (w : world) : completion world :=
  match current_handle snapshot i w with
  | None => Normal w
  | Some (r, h) =>
      match call_close h with
      | Normal h' => Normal (set_refs (<[r := h']> (refs w)) w)
      | Throw e => Throw e
      end
  end.

(** [if (sheetPromises[id]) { sheetPromises[id].resolve(v); delete
    sheetPromises[id]; }], and the same with [reject]: [st] is the state
    the stored promise is to take.  With an own pair the promise is settled
    and the pair deleted; with none, an [id] naming an inherited property
    still passes the test, and calling [resolve] or [reject] on that
    property, which has neither, throws a [TypeError]. *)
Definition settle_stored (i : string) (st : promise_state) (w : world) :
    completion world :=
  match sheetPromises w !! i with
  | Some pr => Normal (set_sheetPromises (delete i (sheetPromises w)) (settle pr st w))
  | None => if inherited i then Throw type_error else Normal w
  end.

(** The [catch] of [closeSheet]; what it throws itself escapes. *)
Definition closeSheet_catch (i : string) (error : jsval) (w : world) : world :=
  match settle_stored i (Rejected error) w with
  | Normal w' => w'
  | Throw e => set_uncaught (uncaught w ++ [e]) w
  end.

(** [closeSheet], as created by a render whose state was [snapshot].  The
    guard [if (sheets[id])] passes for an own entry and for an [id] that
    names an inherited property. *)
Definition closeSheet (snapshot : gmap string SheetInstance) (i : string)
    (result : jsval) (w : world) : world :=
  match snapshot !! i, inherited i with
  | None, false => w
  | _, _ =>
      match close_handle snapshot i w with
      | Normal w1 =>
          let w2 := setSheets (CloseUpdate i) w1 in
          match settle_stored i (Resolved result) w2 with
          | Normal w3 => w3
          | Throw error => closeSheet_catch i error w2
          end
      | Throw error => closeSheet_catch i error w
      end
  end.

(** The two [setTimeout] callbacks of [openSheet].  The first runs inside
    [try ... catch (error) { reject(error) }]; the second runs later, out
    of the reach of that [catch]. *)
Definition run_timer (t : timer) (w : world) : world :=
  match current_handle (timer_sheets t) (timer_id t) w with
  | Some (r, h) =>
      match call_open h with
      | Normal h' => set_refs (<[r := h']> (refs w)) w
      | Throw e =>
          match stage t with
          | FirstAttempt => reject (timer_promise t) e w
          | Retry => set_uncaught (uncaught w ++ [e]) w
          end
      end
  | None =>
      match stage t with
      | FirstAttempt =>
          set_timers
            (timers w ++ [Timer 100 Retry (timer_id t) (timer_sheets t) (timer_promise t)]) w
      | Retry => reject (timer_promise t) (JStr (ref_not_available (timer_id t))) w
      end
  end.

(** The [n]-th scheduled callback runs. *)
Definition fire (n : nat) (w : world) : world :=
  match timers w !! n with
  | None => w
  | Some t => run_timer t (set_timers (delete n (timers w)) w)
  end.

(** The provider renders: the queued updaters are applied in order, and its
    effect stores the [openSheet] and [closeSheet] of this render in the
    two module-level variables. *)
Definition render (w : world) : world :=
  let s := apply_sheets_updates (registeredSheets w) (sheetUpdates w) (sheets w) in
  World (registeredSheets w) (Some s) (Some s) s [] (sheetPromises w)
        (promises w) (nextPromise w) (refs w) (nextRef w) (timers w) (uncaught w).

(** The effect of a [SheetWrapper], which the provider renders for the
    entries of [registeredSheets] only: [useRef(null)] and
    [registerSheetInstance(id, sheetRef)]. *)
Definition mountSheetWrapper (i : string) (w : world) : world :=
  match registeredSheets w !! i with
  | None => w
  | Some _ => let (r, w1) := new_ref w in registerSheetInstance i r w1
  end.

(** ** The static API *)

Module SheetManager.

Definition register (i : string) (component : nat) (w : world) : world :=
  set_registeredSheets (<[i := component]> (registeredSheets w)) w.

Definition show (i : string) (p : jsval) (w : world) : nat * world :=
  match contextSheetOpener w with
  | None => new_promise (Rejected (JStr provider_not_initialized)) w
  | Some snapshot => openSheet snapshot i p w
  end.

Definition hide (i : string) (result : jsval) (w : world) : world :=
  match contextSheetCloser w with
  | None => w
  | Some snapshot => closeSheet snapshot i result w
  end.

End SheetManager.

(** ** Runs

    What can happen during the life of one mounted provider: calls of the
    static API, renders of the provider, scheduled callbacks, the effects of
    the wrappers the provider renders, React attaching a handle to a ref or
    detaching it, and events of the unit behind a handle. *)

Inductive op : Type :=
  | OpRegister (i : string) (component : nat)
  | OpShow (i : string) (p : jsval)
  | OpHide (i : string) (result : jsval)
  | OpRender
  | OpFire (n : nat)
  | OpMountWrapper (i : string)
  | OpUnmountWrapper (i : string)
  | OpUpdateProps (i : string) (p : jsval)
  | OpAttach (r : nat) (h : handle)     (* React sets [ref.current] *)
  | OpDetach (r : nat)                  (* React resets it to [null] *)
  | OpUnit (r : nat) (e : ActionSheet.event).

Definition exec (o : op) (w : world) : world :=
  match o with
  | OpRegister i c => SheetManager.register i c w
  | OpShow i p => snd (SheetManager.show i p w)
  | OpHide i result => SheetManager.hide i result w
  | OpRender => render w
  | OpFire n => fire n w
  | OpMountWrapper i => mountSheetWrapper i w
  | OpUnmountWrapper i => unregisterSheetInstance i w
  | OpUpdateProps i p => updateSheetProps i p w
  | OpAttach r h => set_refs (<[r := h]> (refs w)) w
  | OpDetach r => set_refs (delete r (refs w)) w
  | OpUnit r e =>
      match refs w !! r with
      | Some (HSheet s) => set_refs (<[r := HSheet (ActionSheet.step e s)]> (refs w)) w
      | _ => w
      end
  end.

Definition run (os : list op) (w : world) : world :=
  fold_left (fun acc o => exec o acc) os w.

(** [{ payload: P }], the options bag of the README. *)
Definition payload (P : jsval) : jsval := JObj (Field "payload" P NoFields).

(** ** Predicates of the statements *)

(** The closing state: the committed [isClosing] is [true] and no queued
    update resets it. *)
Definition closing (s : ActionSheet.t) : Prop :=
  ActionSheet.isClosing s = true /\
  ActionSheet.SetIsClosing false ∉ ActionSheet.stateUpdates s.

(** Everything but the promises created so far is the same in [w] and [w']. *)
Definition same_but_promises (w w' : world) : Prop :=
  registeredSheets w' = registeredSheets w /\
  contextSheetOpener w' = contextSheetOpener w /\
  contextSheetCloser w' = contextSheetCloser w /\
  sheets w' = sheets w /\
  sheetUpdates w' = sheetUpdates w /\
  sheetPromises w' = sheetPromises w /\
  refs w' = refs w /\
  nextRef w' = nextRef w /\
  timers w' = timers w /\
  uncaught w' = uncaught w.

(** The error a method call throws, if it throws. *)
Definition thrown {A : Type} (c : completion A) : option jsval :=
  match c with
  | Normal _ => None
  | Throw e => Some e
  end.

(** What [closeSheet] does once the handle, if any, has been closed and
    left the world [set_refs rs w]. *)
Definition closed_normally (i : string) (result : jsval)
    (rs : gmap nat handle) (w : world) : world :=
  let w2 := setSheets (CloseUpdate i) (set_refs rs w) in
  match sheetPromises w !! i with
  | Some pr => set_sheetPromises (delete i (sheetPromises w)) (resolve pr result w2)
  | None => if inherited i then set_uncaught (uncaught w2 ++ [type_error]) w2 else w2
  end.

(** *** Invariants of runs *)

Definition update_ok (registered : gmap string nat) (u : sheets_update) : Prop :=
  match u with
  | RegisterUpdate j _ => is_Some (registered !! j)
  | _ => True
  end.

(** An id [openSheet] lets through whatever the directory holds. *)
Definition admissible (registered : gmap string nat) (j : string) : Prop :=
  is_Some (registered !! j) \/ inherited j = true.

Definition known_ids (registered : gmap string nat)
    (m : gmap string SheetInstance) : Prop :=
  forall j : string, is_Some (m !! j) -> admissible registered j.

(** Every id of the directory, in any of its copies, is a registered id
    or names an inherited property, and so does every id with a stored
    promise, which is older than the next promise and was stored through a
    mounted provider; no promise is stored under two ids. *)
Record wf (w : world) : Prop := WF {
  wf_promises : forall (j : string) (pr : nat), sheetPromises w !! j = Some pr ->
    pr < nextPromise w /\ admissible (registeredSheets w) j
    /\ is_Some (contextSheetOpener w);
  wf_opener : forall (snapshot : gmap string SheetInstance), contextSheetOpener w = Some snapshot ->
    known_ids (registeredSheets w) snapshot;
  wf_sheets : known_ids (registeredSheets w) (sheets w);
  wf_updates : Forall (update_ok (registeredSheets w)) (sheetUpdates w);
  wf_distinct : forall (j k : string) (pr : nat), sheetPromises w !! j = Some pr ->
    sheetPromises w !! k = Some pr -> j = k;
}.

(** Promise [q] exists and is not stored in [sheetPromises]. *)
Definition orphan (q : nat) (w : world) : Prop :=
  q < nextPromise w /\ forall j : string, sheetPromises w !! j <> Some q.

(** The id an update is about. *)
Definition k_of (u : sheets_update) : string :=
  match u with
  | RegisterUpdate k _ | UnregisterUpdate k | PropsUpdate k _
  | OpenUpdate k _ _ | CloseUpdate k => k
  end.

(** Every entry is stored under its own [id]. *)
Definition keyed (m : gmap string SheetInstance) : Prop :=
  forall (j : string) (e : SheetInstance), m !! j = Some e -> id e = j.

(** The promises after [resolve] or [reject] of promise [q]. *)
Definition settled_map (m : gmap nat promise_state) (q : nat)
    (st : promise_state) : gmap nat promise_state :=
  match m !! q with
  | Some Pending => <[q := st]> m
  | _ => m
  end.

(** The module-level opener and closer are those of the last render. *)
Definition closures_of_last_render (w : world) : Prop :=
  contextSheetOpener w = contextSheetCloser w /\
  forall snapshot : gmap string SheetInstance,
    contextSheetOpener w = Some snapshot -> snapshot = sheets w.

(** How one step may change the promises: not at all, by settling one,
    or by creating the next one. *)
Definition promise_step (m m' : gmap nat promise_state) (n n' : nat) : Prop :=
  (m' = m /\ n' = n) \/
  (exists q st, m' = settled_map m q st /\ n' = n) \/
  (exists st, m' = <[n := st]> m /\ n' = S n).

(** * The presentation unit *)

Section ActionSheetFacts.

Import ActionSheet.

Lemma greater_irreflexive (a : number) : greater a a = false.
Proof.
  unfold greater, SFltb. destruct a as [[|]|[|]| |[|] m e]; cbn; try reflexivity.
  - rewrite Z.compare_refl, Pos.compare_cont_refl. reflexivity.
  - rewrite Z.compare_refl, Pos.compare_cont_refl. reflexivity.
Qed.

(** C5, as the specification states it, fails: a release at exactly a
    fifth of the screen height, with no velocity, springs back. *)
Lemma release_at_threshold_springs_back :
  let g := Gesture (integer 160) (integer 0) in
  dy g = times (integer 800) (decimal 2 1) /\
  greater (vy g) (decimal 5 1) = false /\
  onPanResponderRelease (integer 800) g = SpringToOpen /\
  onPanResponderRelease (integer 800) g <> CallClose.
Proof.
  cbv zeta. repeat split; try (vm_compute; reflexivity).
  vm_compute. discriminate.
Qed.

(** C5, amended: a release calls [close] exactly when the drag distance
    is strictly above [SCREEN_HEIGHT * 0.2] or the velocity is strictly
    above [0.5], as binary64 values; otherwise it springs back to the open
    position, and so it does at a distance equal to [SCREEN_HEIGHT * 0.2]
    when the velocity is not above [0.5]. *)
Theorem release_threshold_is_strict (H : number) (g : gestureState) :
  (onPanResponderRelease H g = CallClose <->
     greater (dy g) (times H (decimal 2 1)) = true \/
     greater (vy g) (decimal 5 1) = true) /\
  (onPanResponderRelease H g = SpringToOpen <->
     greater (dy g) (times H (decimal 2 1)) = false /\
     greater (vy g) (decimal 5 1) = false) /\
  (dy g = times H (decimal 2 1) -> greater (vy g) (decimal 5 1) = false ->
   onPanResponderRelease H g = SpringToOpen).
Proof.
  unfold onPanResponderRelease. split; [|split].
  - destruct (greater (dy g) _), (greater (vy g) _); cbn;
      split; auto; try discriminate; intros [?|?]; discriminate.
  - destruct (greater (dy g) _), (greater (vy g) _); cbn;
      split; auto; try discriminate; intros [? ?]; discriminate.
  - intros -> ->. now rewrite greater_irreflexive.
Qed.

Lemma release_threshold_is_strict_witness :
  onPanResponderRelease (integer 736)
    (Gesture (times (integer 736) (decimal 2 1)) (integer 0)) = SpringToOpen /\
  onPanResponderRelease (integer 736) (Gesture (integer 148) (integer 0)) = CallClose.
Proof.
  destruct (release_threshold_is_strict (integer 736)
              (Gesture (times (integer 736) (decimal 2 1)) (integer 0)))
    as (_ & _ & H3).
  destruct (release_threshold_is_strict (integer 736)
              (Gesture (integer 148) (integer 0))) as ((_ & H1) & _).
  split; [apply H3 | apply H1; left]; vm_compute; reflexivity.
Defined.

(** *** [open] *)

Lemma apply_updates_snoc (us : list state_update) (u : state_update) (vc : bool * bool) :
  apply_updates (us ++ [u]) vc = apply_update u (apply_updates us vc).
Proof. unfold apply_updates. now rewrite fold_left_app. Qed.






(** *** [isOpen] while closing *)

Lemma isOpen_spec (s : t) :
  isOpen s = true <-> isVisible s = true /\ isClosing s = false.
Proof. unfold isOpen. rewrite andb_true_iff, negb_true_iff. reflexivity. Qed.

Lemma apply_updates_keeps_closing (us : list state_update) (v : bool) :
  SetIsClosing false ∉ us -> snd (apply_updates us (v, true)) = true.
Proof.
  induction us as [|u us IH] using rev_ind; [reflexivity|].
  intros Hn. rewrite apply_updates_snoc.
  assert (Hus : SetIsClosing false ∉ us) by (intros Hin; apply Hn; set_solver).
  specialize (IH Hus).
  destruct u as [b|[|]]; simpl; auto.
  exfalso. apply Hn. set_solver.
Qed.

Lemma closing_step (e : event) (s : t) :
  closing s -> finishes_close e s = false ->
  closing (step e s) /\ onCloseCalls (step e s) = onCloseCalls s.
Proof.
  intros [Hc Hq] Hf. destruct e as [| | |n]; simpl.
  - unfold open. rewrite Hc, orb_true_r. now split.
  - unfold close. rewrite Hc, orb_true_r. now split.
  - split; [|reflexivity]. split; simpl; [|set_solver].
    rewrite Hc. now apply apply_updates_keeps_closing.
  - unfold finish. simpl in Hf.
    destruct (animations s !! n) as [[|]|]; try discriminate; now split.
Qed.

Lemma closing_run (es : list event) (s : t) :
  closing s -> close_running es s = true ->
  closing (run es s) /\ onCloseCalls (run es s) = onCloseCalls s.
Proof.
  revert s. induction es as [|e es IH]; intros s Hs Hr; [now split|].
  simpl in Hr. apply andb_true_iff in Hr as [Hf Hr].
  apply negb_true_iff in Hf.
  destruct (closing_step e s Hs Hf) as [Hs' Hn].
  destruct (IH (step e s) Hs' Hr) as [Hs'' Hn'].
  simpl. split; [exact Hs''|]. now rewrite <- Hn.
Qed.

Lemma close_enters_closing (s : t) :
  isOpen s = true -> closing (commit (close s)).
Proof.
  intros [Hv Hc]%isOpen_spec.
  destruct s as [v c us an oo oc]. simpl in Hv, Hc. subst v c.
  split; cbn; [|set_solver].
  now rewrite apply_updates_snoc.
Qed.

(** C10, as the specification states it, fails: right after [close()] on
    an open unit the closing animation is running and no callback has
    fired, and [isOpen()], which reads the state of the render before, is
    still [true]. *)
Lemma isOpen_true_right_after_close :
  let s := commit (open initial) in
  isOpen s = true /\
  animations (close s) = [OpenAnimation; CloseAnimation] /\
  onCloseCalls (close s) = 0 /\
  isOpen (close s) = true.
Proof. cbv zeta. repeat split. Qed.

(** C10, amended: [isOpen()] is [true] exactly when the state of the last
    render is visible and not closing.  After [close()] on an open unit
    the closing animation runs and [isOpen()] is still [true] until the
    next render.  Once that render has happened, and for as long as the
    completion callback of the closing animation has not run, whatever else
    happens to the unit, [isOpen()] is [false] and the close callback has
    not been called. *)
Theorem isOpen_false_while_closing (s : t) (es : list event) :
  (isOpen s = true <-> isVisible s = true /\ isClosing s = false) /\
  (isOpen s = true ->
   let c := commit (close s) in
   (animations (close s) = animations s ++ [CloseAnimation] /\
    isOpen (close s) = true) /\
   isClosing c = true /\
   (close_running es c = true ->
    isOpen (run es c) = false /\ onCloseCalls (run es c) = onCloseCalls s)).
Proof.
  split; [apply isOpen_spec|].
  intros Ho c.
  pose proof (close_enters_closing s Ho) as Hc. fold c in Hc.
  split.
  { pose proof Ho as [Hv Hcl]%isOpen_spec. unfold close, isOpen.
    rewrite Hv, Hcl. cbn. now rewrite Hv, Hcl. }
  split; [apply Hc|]. intros Hr.
  destruct (closing_run es c Hc Hr) as [[Hc' _] Hn].
  split.
  - unfold isOpen. rewrite Hc'. apply andb_false_r.
  - rewrite Hn. subst c. unfold close.
    apply isOpen_spec in Ho as [-> ->]. reflexivity.
Qed.

Lemma isOpen_false_while_closing_witness :
  let s := commit (open initial) in
  let c := commit (close s) in
  let es := [EvOpen; EvFinish 0; EvClose; EvCommit] in
  isOpen s = true /\ isClosing c = true /\
  isOpen (run es c) = false /\ onCloseCalls (run es c) = 0.
Proof.
  cbv zeta. split; [reflexivity|].
  destruct (isOpen_false_while_closing (commit (open initial))
              [EvOpen; EvFinish 0; EvClose; EvCommit]) as [_ H].
  destruct (H eq_refl) as (_ & Hc & Hr).
  split; [exact Hc|]. apply Hr. reflexivity.
Defined.

End ActionSheetFacts.

(** * The manager *)

Section ManagerFacts.

Import SheetManager.

Implicit Types (w : world) (i : string) (snapshot : gmap string SheetInstance).

Lemma settle_pending w (p : nat) (st : promise_state) :
  promises w !! p = Some Pending ->
  promises (settle p st w) !! p = Some st /\
  (forall q, q <> p -> promises (settle p st w) !! q = promises w !! q) /\
  same_but_promises w (settle p st w) /\
  nextPromise (settle p st w) = nextPromise w.
Proof.
  intros Hp. unfold settle. rewrite Hp. cbn.
  split; [apply lookup_insert_eq|].
  split; [intros q Hq; now apply lookup_insert_ne|].
  unfold same_but_promises. cbn. tauto.
Qed.

Lemma settle_same w (p : nat) (st : promise_state) :
  same_but_promises w (settle p st w) /\
  nextPromise (settle p st w) = nextPromise w /\
  (forall q, q <> p -> promises (settle p st w) !! q = promises w !! q).
Proof.
  unfold settle, same_but_promises.
  destruct (promises w !! p) as [[| |]|]; cbn; try tauto.
  repeat split; try reflexivity. intros q Hq. now apply lookup_insert_ne.
Qed.

Lemma new_promise_rejected w (e : jsval) :
  let pr := (new_promise (Rejected e) w).1 in
  let w' := (new_promise (Rejected e) w).2 in
  promises w' !! pr = Some (Rejected e) /\
  (forall q, q <> pr -> promises w' !! q = promises w !! q) /\
  same_but_promises w w'.
Proof.
  cbn. split; [apply lookup_insert_eq|].
  split; [intros q Hq; now apply lookup_insert_ne|].
  unfold same_but_promises. cbn. tauto.
Qed.

(** C8: while the two module-level references are [null], [show] returns
    a promise rejected with ['SheetProvider not initialized'] and touches
    nothing else, and [hide] returns without any effect. *)
Theorem provider_not_initialized_show_hide w i (p result : jsval) :
  contextSheetOpener w = None ->
  contextSheetCloser w = None ->
  let pr := (show i p w).1 in
  let w' := (show i p w).2 in
  promises w' !! pr = Some (Rejected (JStr "SheetProvider not initialized")) /\
  (forall q, q <> pr -> promises w' !! q = promises w !! q) /\
  same_but_promises w w' /\
  hide i result w = w.
Proof.
  intros Ho Hc. unfold show, hide. rewrite Ho, Hc.
  pose proof (new_promise_rejected w (JStr provider_not_initialized)) as H.
  cbv zeta in *. tauto.
Qed.

Lemma provider_not_initialized_show_hide_witness :
  promises (show "s1" JUndefined initial).2 !! 0
    = Some (Rejected (JStr "SheetProvider not initialized")) /\
  hide "s1" JUndefined initial = initial.
Proof.
  pose proof (provider_not_initialized_show_hide initial "s1" JUndefined JUndefined
                eq_refl eq_refl) as H.
  cbv zeta in H. split; [apply H | apply H].
Defined.

Lemma openSheet_unknown snapshot i (p : jsval) w :
  snapshot !! i = None -> registeredSheets w !! i = None -> inherited i = false ->
  openSheet snapshot i p w = new_promise (Rejected (JStr (not_registered i))) w.
Proof.
  intros Hs Hr Hi. unfold openSheet. cbn. rewrite Hs, Hr, Hi.
  unfold reject, settle. cbn. rewrite lookup_insert_eq. cbn.
  unfold new_promise, set_promises. cbn. now rewrite insert_insert_eq.
Qed.

Lemma openSheet_known snapshot i (p : jsval) w :
  (is_Some (snapshot !! i) \/ is_Some (registeredSheets w !! i)) \/ inherited i = true ->
  openSheet snapshot i p w
  = (nextPromise w,
     World (registeredSheets w) (contextSheetOpener w) (contextSheetCloser w)
           (sheets w) (sheetUpdates w ++ [OpenUpdate i p (nextRef w)])
           (<[i := nextPromise w]> (sheetPromises w))
           (<[nextPromise w := Pending]> (promises w)) (S (nextPromise w))
           (refs w) (S (nextRef w))
           (timers w ++ [Timer 50 FirstAttempt i snapshot (nextPromise w)])
           (uncaught w)).
Proof.
  intros Hk. unfold openSheet. cbn.
  destruct (snapshot !! i) as [e0|]; [reflexivity|].
  destruct (registeredSheets w !! i) as [c|]; [reflexivity|].
  destruct (inherited i); [reflexivity|].
  destruct Hk as [[[? [=]]|[? [=]]]|[=]].
Qed.

(** C2: for an id that is neither in the [sheets] that [openSheet] reads
    nor in [registeredSheets], [show] does what the specification says when
    the id names no inherited property: the returned promise is rejected
    with [Sheet with id "..." is not registered.] and the directory, the
    queued updates and [sheetPromises] are as before.  When the id names an
    inherited property, the guard lets it through: the returned promise is
    pending and stored in [sheetPromises], the directory update is queued
    and gives an open entry at the next render, and the first attempt is
    scheduled. *)
Theorem show_of_unregistered_id w snapshot i (p : jsval) :
  contextSheetOpener w = Some snapshot ->
  snapshot !! i = None ->
  registeredSheets w !! i = None ->
  let pr := (show i p w).1 in
  let w' := (show i p w).2 in
  (inherited i = false ->
     promises w' !! pr = Some (Rejected (JStr (not_registered i))) /\
     (forall q, q <> pr -> promises w' !! q = promises w !! q) /\
     same_but_promises w w' /\
     sheetPromises w' = sheetPromises w /\
     sheets (render w') = sheets (render w)) /\
  (inherited i = true -> i <> "__proto__" ->
     promises w' !! pr = Some Pending /\
     sheetPromises w' = <[i := pr]> (sheetPromises w) /\
     sheetUpdates w' = sheetUpdates w ++ [OpenUpdate i p (nextRef w)] /\
     timers w' = timers w ++ [Timer 50 FirstAttempt i snapshot pr] /\
     exists e : SheetInstance,
       sheets (render w') !! i = Some e /\ isOpen e = true /\
       (sheets (render w) !! i = None -> ref e = RefUndefined)).
Proof.
  intros Ho Hs Hr. cbv zeta. split; intros Hi.
  - unfold show. rewrite Ho, (openSheet_unknown _ _ _ _ Hs Hr Hi).
    pose proof (new_promise_rejected w (JStr (not_registered i))) as H.
    cbv zeta in *. destruct H as (H1 & H2 & H3).
    repeat split; try apply H3; auto.
  - intros _. unfold show. rewrite Ho, openSheet_known by auto.
    cbn. rewrite lookup_insert_eq.
    do 4 (split; [reflexivity|]).
    unfold apply_sheets_updates. rewrite fold_left_app. cbn. rewrite Hi.
    destruct (fold_left _ _ _ !! i) as [e|] eqn:He.
    + eexists. rewrite lookup_insert_eq. split; [reflexivity|].
      split; [reflexivity|]. intros [=].
    + eexists. rewrite lookup_insert_eq. now repeat split.
Qed.

Lemma show_of_unregistered_id_witness :
  let w := render (register "s1" 7 initial) in
  (promises (show "unknown" JUndefined w).2 !! 0
     = Some (Rejected (JStr (not_registered "unknown"))) /\
   sheetPromises (show "unknown" JUndefined w).2 = sheetPromises w /\
   sheets (render (show "unknown" JUndefined w).2) = sheets (render w)) /\
  (promises (show "toString" JUndefined w).2 !! 0 = Some Pending /\
   sheetPromises (show "toString" JUndefined w).2 !! "toString" = Some 0 /\
   sheetUpdates (show "toString" JUndefined w).2
     = [OpenUpdate "toString" JUndefined 0] /\
   sheets (render (show "toString" JUndefined w).2) !! "toString"
     = Some (Instance "toString" RefUndefined empty_object true)).
Proof.
  cbv zeta.
  pose proof (show_of_unregistered_id (render (register "s1" 7 initial)) ∅
                "unknown" JUndefined eq_refl eq_refl eq_refl) as H.
  pose proof (show_of_unregistered_id (render (register "s1" 7 initial)) ∅
                "toString" JUndefined eq_refl eq_refl eq_refl) as K.
  cbv zeta in H, K. destruct H as [H _]. destruct K as [_ K].
  destruct (H eq_refl) as (H1 & _ & _ & H4 & H5).
  split; [split; [exact H1 | split; [exact H4 | exact H5]]|].
  vm_compute. repeat split.
Defined.

(** *** [closeSheet] *)

Lemma set_refs_same w : set_refs (refs w) w = w.
Proof. now destruct w. Qed.

Lemma close_handle_normal snapshot i w w1 :
  close_handle snapshot i w = Normal w1 -> exists rs, w1 = set_refs rs w.
Proof.
  unfold close_handle.
  destruct (current_handle snapshot i w) as [[r h]|].
  - destruct (call_close h) as [h'|err]; [|discriminate].
    intros [= <-]. now eexists.
  - intros [= <-]. exists (refs w). now rewrite set_refs_same.
Qed.

(** The [close] of an [ActionSheet] does not throw. *)
Lemma sheet_handle_close_returns snapshot i w (r : nat) (s : ActionSheet.t) :
  current_handle snapshot i w = Some (r, HSheet s) ->
  thrown (close_handle snapshot i w) = None.
Proof. intros H. unfold close_handle. now rewrite H. Qed.


Lemma sheets_render w :
  sheets (render w)
  = apply_sheets_updates (registeredSheets w) (sheetUpdates w) (sheets w).
Proof. reflexivity. Qed.

Lemma sheets_render_snoc w (u : sheets_update) :
  sheets (render (setSheets u w))
  = apply_sheets_update (registeredSheets w) u (sheets (render w)).
Proof. cbn. unfold apply_sheets_updates. now rewrite fold_left_app. Qed.

Lemma closeSheet_normal snapshot i (e : SheetInstance) (result : jsval) w :
  snapshot !! i = Some e ->
  thrown (close_handle snapshot i w) = None ->
  exists rs, close_handle snapshot i w = Normal (set_refs rs w) /\
             closeSheet snapshot i result w = closed_normally i result rs w.
Proof.
  intros Hs Ht. unfold closeSheet. rewrite Hs.
  destruct (close_handle snapshot i w) as [w1|err] eqn:Hc; [|discriminate].
  destruct (close_handle_normal _ _ _ _ Hc) as [rs ->].
  exists rs. split; [reflexivity|].
  unfold closed_normally, closeSheet_catch, settle_stored. cbn.
  destruct (sheetPromises w !! i); [reflexivity|].
  destruct (inherited i); reflexivity.
Qed.

(** The handle of an id without an own entry is [undefined]. *)
Lemma close_handle_absent snapshot i w :
  snapshot !! i = None -> close_handle snapshot i w = Normal w.
Proof. intros Hs. unfold close_handle, current_handle. now rewrite Hs. Qed.

(** C4: for an id without an entry in the [sheets] that [closeSheet]
    reads, [hide] does what the specification says when the id names no
    inherited property: the whole world is as before.  When the id names an inherited
    property and a provider is mounted, the guard lets it through: the
    directory update is queued and gives an entry at the next render; with
    no promise stored for the id a [TypeError] escapes from the [catch]
    block, and a promise stored for the id is resolved. *)
Theorem hide_of_absent_id w i (result : jsval) :
  (forall snapshot, contextSheetCloser w = Some snapshot -> snapshot !! i = None) ->
  (inherited i = false -> hide i result w = w) /\
  (inherited i = true -> i <> "__proto__" -> is_Some (contextSheetCloser w) ->
     (sheetPromises w !! i = None ->
        hide i result w
        = set_uncaught (uncaught w ++ [type_error]) (setSheets (CloseUpdate i) w)) /\
     (forall pr : nat, sheetPromises w !! i = Some pr ->
        hide i result w
        = set_sheetPromises (delete i (sheetPromises w))
            (resolve pr result (setSheets (CloseUpdate i) w))) /\
     exists e : SheetInstance,
       sheets (render (hide i result w)) !! i = Some e /\ isOpen e = false).
Proof.
  intros H. split.
  - intros Hi. unfold hide.
    destruct (contextSheetCloser w) as [snapshot|]; [|reflexivity].
    unfold closeSheet. now rewrite (H snapshot eq_refl), Hi.
  - intros Hi _ [snapshot Hc]. unfold hide. rewrite Hc.
    pose proof (H snapshot Hc) as Hs.
    assert (E : closeSheet snapshot i result w
                = closed_normally i result (refs w) w).
    { unfold closeSheet. rewrite Hs, Hi, (close_handle_absent _ _ _ Hs).
      unfold closed_normally, closeSheet_catch, settle_stored.
      rewrite set_refs_same. cbn.
      destruct (sheetPromises w !! i); [reflexivity|]. now rewrite Hi. }
    rewrite E. unfold closed_normally. rewrite set_refs_same.
    split; [intros Hn; now rewrite Hn, Hi|].
    split; [intros pr Hp; now rewrite Hp|].
    assert (K : exists e : SheetInstance,
               sheets (render (setSheets (CloseUpdate i) w)) !! i = Some e
               /\ isOpen e = false).
    { rewrite sheets_render_snoc. unfold apply_sheets_update. rewrite Hi.
      destruct (sheets (render w) !! i) as [e0|];
        eexists; rewrite lookup_insert_eq; split; reflexivity. }
    destruct (sheetPromises w !! i) as [pr|]; [|rewrite Hi; exact K].
    unfold resolve, settle.
    destruct (promises (setSheets (CloseUpdate i) w) !! pr) as [[| |]|]; exact K.
Qed.

Lemma hide_of_absent_id_witness :
  let w := render (register "s1" 7 initial) in
  hide "s2" (JBool true) w = w /\
  hide "constructor" (JBool true) w
  = set_uncaught [type_error] (setSheets (CloseUpdate "constructor") w) /\
  sheets (render (hide "constructor" (JBool true) w)) !! "constructor"
  = Some (Instance "constructor" RefUndefined JUndefined false).
Proof.
  cbv zeta.
  pose proof (hide_of_absent_id (render (register "s1" 7 initial)) "s2" (JBool true))
    as H.
  pose proof (hide_of_absent_id (render (register "s1" 7 initial)) "constructor"
                (JBool true)) as K.
  split; [apply H; [intros snapshot [= <-]; reflexivity | reflexivity]|].
  destruct K as [_ K]; [intros snapshot [= <-]; reflexivity|].
  destruct (K eq_refl) as (K1 & _ & _); [discriminate | eexists; reflexivity |].
  split; [exact (K1 eq_refl)|]. rewrite (K1 eq_refl). reflexivity.
Defined.

Lemma closed_normally_promise i (result : jsval) rs w (pr : nat) :
  sheetPromises w !! i = Some pr ->
  promises w !! pr = Some Pending ->
  let w' := closed_normally i result rs w in
  promises w' !! pr = Some (Resolved result) /\
  sheetPromises w' !! i = None /\
  sheetUpdates w' = sheetUpdates w ++ [CloseUpdate i] /\
  refs w' = rs.
Proof.
  intros Hi Hp. unfold closed_normally. rewrite Hi.
  unfold resolve, settle. cbn. rewrite Hp. cbn.
  rewrite lookup_insert_eq, lookup_delete_eq. tauto.
Qed.

Lemma closed_normally_fields i (result : jsval) rs w :
  let w' := closed_normally i result rs w in
  sheetPromises w' !! i = None /\
  sheetUpdates w' = sheetUpdates w ++ [CloseUpdate i] /\
  refs w' = rs /\
  registeredSheets w' = registeredSheets w /\
  sheets w' = sheets w /\
  (sheetPromises w !! i = None -> promises w' = promises w).
Proof.
  unfold closed_normally. destruct (sheetPromises w !! i) as [pr|] eqn:Hi.
  - unfold resolve, settle. cbn.
    destruct (promises w !! pr) as [[| |]|]; cbn;
      rewrite lookup_delete_eq; repeat split; discriminate.
  - destruct (inherited i); cbn; rewrite Hi; tauto.
Qed.





(** *** The timers of [openSheet] *)

Lemma current_handle_refs snapshot i w w' :
  refs w' = refs w -> current_handle snapshot i w' = current_handle snapshot i w.
Proof. unfold current_handle. now intros ->. Qed.

Lemma fire_last w (t : timer) (ts : list timer) :
  timers w = ts ++ [t] ->
  fire (length ts) w = run_timer t (set_timers ts w).
Proof.
  intros Ht. unfold fire. rewrite Ht.
  rewrite list_lookup_middle by reflexivity.
  now rewrite delete_middle, app_nil_r.
Qed.

Lemma open_update_opens (registered : gmap string nat)
    (prev : gmap string SheetInstance) i (p : jsval) (r : nat) :
  is_Some (registered !! i) ->
  exists e, apply_sheets_update registered (OpenUpdate i p r) prev !! i = Some e
            /\ isOpen e = true /\ props e = js_or p empty_object.
Proof.
  intros [c Hc]. cbn. destruct (prev !! i) as [e0|].
  - eexists. rewrite lookup_insert_eq. eauto.
  - rewrite Hc. destruct (inherited i); eexists; rewrite lookup_insert_eq; eauto.
Qed.

(** Whenever it runs, the first callback that finds no handle schedules
    the retry and does nothing else. *)
Lemma first_attempt_without_handle snapshot i (pr d : nat) w :
  current_handle snapshot i w = None ->
  run_timer (Timer d FirstAttempt i snapshot pr) w
  = set_timers (timers w ++ [Timer 100 Retry i snapshot pr]) w.
Proof. intros H. unfold run_timer. cbn. now rewrite H. Qed.

(** Whenever it runs, the retry that finds no handle rejects and does
    nothing else. *)
Lemma retry_without_handle snapshot i (pr d : nat) w :
  current_handle snapshot i w = None ->
  run_timer (Timer d Retry i snapshot pr) w
  = reject pr (JStr (ref_not_available i)) w.
Proof. intros H. unfold run_timer. cbn. now rewrite H. Qed.



(** *** Runs keep the invariants *)

Lemma show_cases w i (p : jsval) :
  (exists e, show i p w = new_promise (Rejected e) w) \/
  (exists snapshot, contextSheetOpener w = Some snapshot /\
     ((is_Some (snapshot !! i) \/ is_Some (registeredSheets w !! i))
      \/ inherited i = true)).
Proof.
  unfold show. destruct (contextSheetOpener w) as [snapshot|]; [|left; eauto].
  destruct (snapshot !! i) as [e|] eqn:Hs; [right; eauto 6|].
  destruct (registeredSheets w !! i) as [c|] eqn:Hr; [right; eauto 6|].
  destruct (inherited i) eqn:Hi; [right; eauto 6|].
  left. eexists. now apply openSheet_unknown.
Qed.

Lemma closeSheet_fields snapshot i (result : jsval) w :
  let w' := closeSheet snapshot i result w in
  registeredSheets w' = registeredSheets w /\
  contextSheetOpener w' = contextSheetOpener w /\
  sheets w' = sheets w /\
  nextPromise w' = nextPromise w /\
  (forall j pr, sheetPromises w' !! j = Some pr -> sheetPromises w !! j = Some pr) /\
  (sheetUpdates w' = sheetUpdates w \/
   sheetUpdates w' = sheetUpdates w ++ [CloseUpdate i]) /\
  (forall q, (forall j, sheetPromises w !! j <> Some q) ->
     promises w' !! q = promises w !! q).
Proof.
  assert (Hbody :
    let w' := match close_handle snapshot i w with
              | Normal w1 =>
                  let w2 := setSheets (CloseUpdate i) w1 in
                  match settle_stored i (Resolved result) w2 with
                  | Normal w3 => w3
                  | Throw error => closeSheet_catch i error w2
                  end
              | Throw error => closeSheet_catch i error w
              end in
    registeredSheets w' = registeredSheets w /\
    contextSheetOpener w' = contextSheetOpener w /\
    sheets w' = sheets w /\
    nextPromise w' = nextPromise w /\
    (forall j pr, sheetPromises w' !! j = Some pr -> sheetPromises w !! j = Some pr) /\
    (sheetUpdates w' = sheetUpdates w \/
     sheetUpdates w' = sheetUpdates w ++ [CloseUpdate i]) /\
    (forall q, (forall j, sheetPromises w !! j <> Some q) ->
       promises w' !! q = promises w !! q)).
  { cbv zeta. unfold closeSheet_catch, settle_stored.
    destruct (close_handle snapshot i w) as [w1|err] eqn:Hc.
    - destruct (close_handle_normal _ _ _ _ Hc) as [rs ->]. cbn.
      destruct (sheetPromises w !! i) as [pr|] eqn:Hi.
      + destruct (settle_same (setSheets (CloseUpdate i) (set_refs rs w)) pr
                    (Resolved result))
          as ((R1 & R2 & _ & R4 & R5 & R6 & _) & R8 & R9).
        cbn. rewrite R1, R2, R4, R5, R8. cbn.
        repeat split; auto.
        * intros j q. destruct (decide (i = j)) as [->|Hne].
          -- now rewrite lookup_delete_eq.
          -- now rewrite lookup_delete_ne.
        * intros q Hq. apply R9. intros ->. now apply (Hq i).
      + destruct (inherited i); cbn; rewrite ?Hi; cbn; tauto.
    - destruct (sheetPromises w !! i) as [pr|] eqn:Hi;
        [|destruct (inherited i); cbn; tauto].
      destruct (settle_same w pr (Rejected err))
        as ((R1 & R2 & _ & R4 & R5 & R6 & _) & R8 & R9).
      cbn. rewrite R1, R2, R4, R5, R8.
      repeat split; auto.
      + intros j q. destruct (decide (i = j)) as [->|Hne].
        * now rewrite lookup_delete_eq.
        * now rewrite lookup_delete_ne.
      + intros q Hq. apply R9. intros ->. now apply (Hq i). }
  unfold closeSheet. destruct (snapshot !! i) as [e|]; [exact Hbody|].
  destruct (inherited i); [exact Hbody | cbn; tauto].
Qed.

Lemma run_timer_fields (t : timer) w :
  let w' := run_timer t w in
  registeredSheets w' = registeredSheets w /\
  contextSheetOpener w' = contextSheetOpener w /\
  sheets w' = sheets w /\
  sheetUpdates w' = sheetUpdates w /\
  sheetPromises w' = sheetPromises w /\
  nextPromise w' = nextPromise w.
Proof.
  unfold run_timer.
  destruct (current_handle (timer_sheets t) (timer_id t) w) as [[r h]|].
  - destruct (call_open h) as [h'|err]; [cbn; tauto|].
    destruct (stage t); [|cbn; tauto].
    destruct (settle_same w (timer_promise t) (Rejected err))
      as ((R1 & R2 & _ & R4 & R5 & R6 & _) & R8 & _).
    unfold reject. tauto.
  - destruct (stage t); [cbn; tauto|].
    destruct (settle_same w (timer_promise t)
                (Rejected (JStr (ref_not_available (timer_id t)))))
      as ((R1 & R2 & _ & R4 & R5 & R6 & _) & R8 & _).
    unfold reject. tauto.
Qed.

Lemma fire_fields (n : nat) w :
  let w' := fire n w in
  registeredSheets w' = registeredSheets w /\
  contextSheetOpener w' = contextSheetOpener w /\
  sheets w' = sheets w /\
  sheetUpdates w' = sheetUpdates w /\
  sheetPromises w' = sheetPromises w /\
  nextPromise w' = nextPromise w.
Proof.
  unfold fire. destruct (timers w !! n) as [t|]; [|cbn; tauto].
  apply (run_timer_fields t (set_timers (delete n (timers w)) w)).
Qed.

Lemma wf_frame w w' (us : list sheets_update) :
  wf w ->
  registeredSheets w' = registeredSheets w ->
  contextSheetOpener w' = contextSheetOpener w ->
  sheets w' = sheets w ->
  nextPromise w <= nextPromise w' ->
  (forall j pr, sheetPromises w' !! j = Some pr -> sheetPromises w !! j = Some pr) ->
  sheetUpdates w' = sheetUpdates w ++ us ->
  Forall (update_ok (registeredSheets w)) us ->
  wf w'.
Proof.
  intros [W1 W2 W3 W4 W5] Hr Ho Hs Hn Hp Hu Hus.
  split; rewrite ?Hr, ?Ho, ?Hs, ?Hu; auto.
  - intros j pr Hj. destruct (W1 j pr (Hp j pr Hj)) as (? & ? & ?).
    repeat split; auto. lia.
  - apply Forall_app. now split.
  - intros j k pr Hj Hk. apply (W5 j k pr); auto.
Qed.

Lemma known_ids_update (registered : gmap string nat) (u : sheets_update)
    (m : gmap string SheetInstance) :
  update_ok registered u -> known_ids registered m ->
  known_ids registered (apply_sheets_update registered u m).
Proof.
  intros Hu Hm j. destruct u as [k r|k|k q|k q r|k]; cbn.
  - destruct (m !! k) as [e|] eqn:Hk.
    + destruct (same_ref (ref e) r); [apply Hm|].
      destruct (decide (k = j)) as [->|Hne]; [intros _; left; exact Hu|].
      rewrite lookup_insert_ne by exact Hne. apply Hm.
    + destruct (decide (k = j)) as [->|Hne]; [intros _; left; exact Hu|].
      rewrite lookup_insert_ne by exact Hne. apply Hm.
  - destruct (decide (k = j)) as [->|Hne].
    + rewrite lookup_delete_eq. now intros [? [=]].
    + rewrite lookup_delete_ne by exact Hne. apply Hm.
  - destruct (m !! k) as [e|] eqn:Hk.
    + destruct (decide (k = j)) as [->|Hne]; [intros _; apply Hm; eauto|].
      rewrite lookup_insert_ne by exact Hne. apply Hm.
    + destruct (inherited k) eqn:Hi; [|apply Hm].
      destruct (decide (k = j)) as [->|Hne]; [intros _; now right|].
      rewrite lookup_insert_ne by exact Hne. apply Hm.
  - destruct (m !! k) as [e|] eqn:Hk.
    + destruct (decide (k = j)) as [->|Hne]; [intros _; apply Hm; eauto|].
      rewrite lookup_insert_ne by exact Hne. apply Hm.
    + destruct (inherited k) eqn:Hi.
      * destruct (decide (k = j)) as [->|Hne]; [intros _; now right|].
        rewrite lookup_insert_ne by exact Hne. apply Hm.
      * destruct (registered !! k) as [c|] eqn:Hc; [|apply Hm].
        destruct (decide (k = j)) as [->|Hne]; [intros _; left; eauto|].
        rewrite lookup_insert_ne by exact Hne. apply Hm.
  - destruct (m !! k) as [e|] eqn:Hk.
    + destruct (decide (k = j)) as [->|Hne]; [intros _; apply Hm; eauto|].
      rewrite lookup_insert_ne by exact Hne. apply Hm.
    + destruct (inherited k) eqn:Hi; [|apply Hm].
      destruct (decide (k = j)) as [->|Hne]; [intros _; now right|].
      rewrite lookup_insert_ne by exact Hne. apply Hm.
Qed.

Lemma known_ids_updates (registered : gmap string nat) (us : list sheets_update)
    (m : gmap string SheetInstance) :
  Forall (update_ok registered) us -> known_ids registered m ->
  known_ids registered (apply_sheets_updates registered us m).
Proof.
  revert m. induction us as [|u us IH]; intros m Hus Hm; [exact Hm|].
  inversion Hus as [|? ? Hu Hus']; subst. cbn.
  apply IH; [exact Hus'|]. now apply known_ids_update.
Qed.

Lemma update_ok_mono (registered : gmap string nat) i (c : nat) (u : sheets_update) :
  update_ok registered u -> update_ok (<[i := c]> registered) u.
Proof.
  destruct u as [k r|k|k q|k q r|k]; cbn; auto.
  intros Hk. destruct (decide (i = k)) as [->|Hne].
  - rewrite lookup_insert_eq. eauto.
  - now rewrite lookup_insert_ne.
Qed.

Lemma is_Some_insert_mono (registered : gmap string nat) i (c : nat) j :
  is_Some (registered !! j) -> is_Some (<[i := c]> registered !! j).
Proof.
  intros Hj. destruct (decide (i = j)) as [->|Hne].
  - rewrite lookup_insert_eq. eauto.
  - now rewrite lookup_insert_ne.
Qed.

Lemma admissible_insert_mono (registered : gmap string nat) i (c : nat) j :
  admissible registered j -> admissible (<[i := c]> registered) j.
Proof.
  intros [Hj|Hj]; [left; now apply is_Some_insert_mono | now right].
Qed.

Lemma wf_initial : wf initial.
Proof.
  split; cbn.
  - intros j pr. now rewrite lookup_empty.
  - discriminate.
  - intros j. rewrite lookup_empty. now intros [? [=]].
  - constructor.
  - intros j k pr. now rewrite lookup_empty.
Qed.

Lemma wf_exec (o : op) w : wf w -> wf (exec o w).
Proof.
  intros Hw. pose proof Hw as [W1 W2 W3 W4 W5].
  destruct o as [i c|i p|i result| |n|i|i|i p|r h|r|r e]; cbn [exec].
  - (* register *)
    split; cbn.
    + intros j pr Hj. destruct (W1 j pr Hj) as (? & ? & ?).
      repeat split; auto. now apply admissible_insert_mono.
    + intros snapshot Ho j Hj. apply admissible_insert_mono. eapply W2; eauto.
    + intros j Hj. apply admissible_insert_mono. now apply W3.
    + eapply Forall_impl; [exact W4|]. intros u. apply update_ok_mono.
    + exact W5.
  - (* show *)
    destruct (show_cases w i p) as [[e ->]|(snapshot & Ho & Hk)].
    + apply (wf_frame w _ []); cbn; auto. now rewrite app_nil_r.
    + unfold show. rewrite Ho, (openSheet_known snapshot i p w Hk). cbn [snd].
      assert (Hreg : admissible (registeredSheets w) i).
      { destruct Hk as [[Hk|Hk]|Hk];
          [eapply W2; eauto | left; exact Hk | right; exact Hk]. }
      split; cbn.
      * intros j pr. destruct (decide (i = j)) as [->|Hne].
        -- rewrite lookup_insert_eq. intros [= <-]. rewrite Ho. eauto.
        -- rewrite lookup_insert_ne by exact Hne. intros Hj.
           destruct (W1 j pr Hj) as (? & ? & ?). repeat split; auto.
      * exact W2.
      * exact W3.
      * apply Forall_app. split; [exact W4|]. repeat constructor.
      * intros j k pr. destruct (decide (i = j)) as [<-|Hij];
          destruct (decide (i = k)) as [<-|Hik];
          rewrite ?lookup_insert_eq, ?lookup_insert_ne by assumption; auto.
        -- intros [= <-] Hk'. destruct (W1 k _ Hk') as (? & _). lia.
        -- intros Hj' [= <-]. destruct (W1 j _ Hj') as (? & _). lia.
        -- apply W5.
  - (* hide *)
    unfold hide. destruct (contextSheetCloser w) as [snapshot|]; [|exact Hw].
    pose proof (closeSheet_fields snapshot i result w) as F. cbv zeta in F.
    destruct F as (F1 & F2 & F3 & F4 & F5 & [F6|F6] & _).
    + apply (wf_frame w _ []); auto; [lia | now rewrite app_nil_r].
    + apply (wf_frame w _ [CloseUpdate i]); auto; [lia | repeat constructor].
  - (* render *)
    assert (Hk : known_ids (registeredSheets w)
                   (apply_sheets_updates (registeredSheets w) (sheetUpdates w) (sheets w)))
      by now apply known_ids_updates.
    split; cbn.
    + intros j pr Hj. destruct (W1 j pr Hj) as (? & ? & ?). eauto.
    + now intros snapshot [= <-].
    + exact Hk.
    + constructor.
    + exact W5.
  - (* a timer *)
    pose proof (fire_fields n w) as F. cbv zeta in F.
    destruct F as (F1 & F2 & F3 & F4 & F5 & F6).
    apply (wf_frame w _ []); auto; [lia | now rewrite F5 | now rewrite app_nil_r].
  - (* a wrapper mounts *)
    unfold mountSheetWrapper.
    destruct (registeredSheets w !! i) as [c|] eqn:Hc; [|exact Hw].
    apply (wf_frame w _ [RegisterUpdate i (nextRef w)]); cbn; auto.
    repeat constructor. cbn. rewrite Hc. eauto.
  - apply (wf_frame w _ [UnregisterUpdate i]); cbn; auto. repeat constructor.
  - apply (wf_frame w _ [PropsUpdate i p]); cbn; auto. repeat constructor.
  - apply (wf_frame w _ []); cbn; auto. now rewrite app_nil_r.
  - apply (wf_frame w _ []); cbn; auto. now rewrite app_nil_r.
  - destruct (refs w !! r) as [[u|? ?]|]; try exact Hw.
    apply (wf_frame w _ []); cbn; auto. now rewrite app_nil_r.
Qed.

Lemma run_snoc (os : list op) (o : op) w : run (os ++ [o]) w = exec o (run os w).
Proof. unfold run. now rewrite fold_left_app. Qed.

Lemma wf_run (os : list op) : wf (run os initial).
Proof.
  induction os as [|o os IH] using rev_ind; [apply wf_initial|].
  rewrite run_snoc. now apply wf_exec.
Qed.

Lemma hide_keeps_orphan (q : nat) i (result : jsval) w :
  (forall j, sheetPromises w !! j <> Some q) ->
  promises (hide i result w) !! q = promises w !! q.
Proof.
  intros Hq. unfold hide. destruct (contextSheetCloser w) as [snapshot|]; [|reflexivity].
  now apply closeSheet_fields.
Qed.

Lemma orphan_exec (q : nat) (o : op) w : orphan q w -> orphan q (exec o w).
Proof.
  intros [Hlt Hq].
  destruct o as [i c|i p|i result| |n|i|i|i p|r h|r|r e]; cbn [exec];
    try (split; cbn; assumption).
  - destruct (show_cases w i p) as [[e ->]|(snapshot & Ho & Hk)].
    + split; cbn; [lia | exact Hq].
    + unfold show. rewrite Ho, (openSheet_known snapshot i p w Hk). cbn [snd].
      split; cbn; [lia|]. intros j. destruct (decide (i = j)) as [->|Hne].
      * rewrite lookup_insert_eq. intros [= E]. lia.
      * rewrite lookup_insert_ne by exact Hne. apply Hq.
  - unfold hide. destruct (contextSheetCloser w) as [snapshot|]; [|now split].
    pose proof (closeSheet_fields snapshot i result w) as F. cbv zeta in F.
    destruct F as (_ & _ & _ & F4 & F5 & _).
    split; [now rewrite F4|]. intros j Hj. exact (Hq j (F5 j q Hj)).
  - pose proof (fire_fields n w) as F. cbv zeta in F.
    destruct F as (_ & _ & _ & _ & F5 & F6).
    split; [now rewrite F6 | now rewrite F5].
  - unfold mountSheetWrapper.
    destruct (registeredSheets w !! i); split; cbn; assumption.
  - destruct (refs w !! r) as [[u|? ?]|]; split; cbn; assumption.
Qed.

Lemma orphan_run (q : nat) (os : list op) w : orphan q w -> orphan q (run os w).
Proof.
  revert w. induction os as [|o os IH]; intros w Hq; [exact Hq|].
  cbn. apply IH. now apply orphan_exec.
Qed.

(** C3: [sheetPromises] maps an id to one promise.  In any world reached
    from the start by registrations, renders, mounts, shows, hides, timers
    and changes of handles, if an id has a promise stored, a further
    [show] of that id stores its own new pending promise in its place and
    touches no other entry; from then on, whatever happens, no [hide]
    changes the state of the replaced promise. *)
Theorem second_show_replaces_pending_pair
    (before later : list op) i (p : jsval) (old : nat) :
  let w := run before initial in
  sheetPromises w !! i = Some old ->
  let pr := (show i p w).1 in
  let w1 := (show i p w).2 in
  (sheetPromises w1 !! i = Some pr /\ pr <> old /\
   promises w1 !! pr = Some Pending /\
   promises w1 !! old = promises w !! old /\
   (forall j, j <> i -> sheetPromises w1 !! j = sheetPromises w !! j)) /\
  (forall j (result : jsval),
     promises (hide j result (run later w1)) !! old
     = promises (run later w1) !! old).
Proof.
  intros w Hold pr w1.
  pose proof (wf_run before) as Hw. fold w in Hw.
  destruct (wf_promises w Hw i old Hold) as (Hlt & Hreg & [snapshot Ho]).
  assert (Hshow : show i p w = openSheet snapshot i p w)
    by (unfold show; now rewrite Ho).
  assert (Hthrough : (is_Some (snapshot !! i) \/ is_Some (registeredSheets w !! i))
               \/ inherited i = true) by (destruct Hreg; auto).
  rewrite (openSheet_known snapshot i p w Hthrough) in Hshow.
  subst pr w1. rewrite Hshow. cbn [fst snd].
  assert (Hne : nextPromise w <> old) by lia.
  split.
  - cbn. rewrite !lookup_insert_eq. repeat split; auto.
    + now rewrite lookup_insert_ne.
    + intros j Hj. now rewrite lookup_insert_ne.
  - intros j result. apply hide_keeps_orphan.
    apply orphan_run. split; cbn; [lia|].
    intros k. destruct (decide (i = k)) as [->|Hk].
    + rewrite lookup_insert_eq. intros [= E]. lia.
    + rewrite lookup_insert_ne by exact Hk. intros Hk'.
      apply Hk. exact (wf_distinct w Hw i k old Hold Hk').
Qed.

Lemma second_show_replaces_pending_pair_witness :
  let before := [OpRegister "s1" 7; OpRender; OpMountWrapper "s1"; OpRender;
                 OpShow "s1" JUndefined] in
  let w := run before initial in
  let w1 := (show "s1" JNull w).2 in
  sheetPromises w !! "s1" = Some 0 /\
  sheetPromises w1 !! "s1" = Some 1 /\
  promises (hide "s1" (JBool true) (run [OpRender] w1)) !! 0 = Some Pending.
Proof.
  cbv zeta. split; [reflexivity|].
  pose proof (second_show_replaces_pending_pair
                [OpRegister "s1" 7; OpRender; OpMountWrapper "s1"; OpRender;
                 OpShow "s1" JUndefined] [OpRender] "s1" JNull 0 eq_refl) as H.
  cbv zeta in H. destruct H as [(H1 & _) H2].
  split; [exact H1|].
  exact (eq_trans (H2 "s1" (JBool true)) eq_refl).
Defined.

End ManagerFacts.

(** * More on the presentation unit *)

Section ActionSheetMore.

Import ActionSheet.




(** X2: a full cycle.  From a hidden unit at rest, [open()], the render
    and the end of the opening animation give an open unit and one call of
    [onOpen]; then [close()], the render, the end of the closing animation
    and the render give back a hidden unit at rest, with one call of
    [onClose]. *)
Theorem open_then_close_round_trip (s : t) :
  isVisible s = false -> isClosing s = false ->
  stateUpdates s = [] -> animations s = [] ->
  let o := finish 0 (commit (open s)) in
  let c := commit (finish 0 (commit (close o))) in
  isOpen o = true /\ onOpenCalls o = S (onOpenCalls s) /\
  animations o = [] /\
  c = Build false false [] [] (S (onOpenCalls s)) (S (onCloseCalls s)).
Proof.
  destruct s as [v c us an oo oc]. simpl. intros -> -> -> ->.
  repeat split.
Qed.

Lemma open_then_close_round_trip_witness :
  commit (finish 0 (commit (close (finish 0 (commit (open initial))))))
  = Build false false [] [] 1 1.
Proof.
  exact (proj2 (proj2 (proj2
           (open_then_close_round_trip initial eq_refl eq_refl eq_refl eq_refl)))).
Defined.

Lemma count_delete {A : Type} (P : A -> Prop) `{forall x, Decision (P x)}
    (l : list A) (n : nat) (a : A) :
  l !! n = Some a ->
  length (filter P l)
  = length (filter P (delete n l)) + (if decide (P a) then 1 else 0).
Proof.
  revert n. induction l as [|x l IH]; intros [|n] Hn; try discriminate.
  - injection Hn as ->. change (delete 0 (a :: l)) with l.
    rewrite filter_cons. destruct (decide (P a)); cbn; lia.
  - cbn in Hn. change (delete (S n) (x :: l)) with (x :: delete n l).
    rewrite !filter_cons. specialize (IH n Hn).
    destruct (decide (P x)); cbn; lia.
Qed.

Lemma count_snoc {A : Type} (P : A -> Prop) `{forall x, Decision (P x)}
    (l : list A) (a : A) :
  length (filter P (l ++ [a]))
  = length (filter P l) + (if decide (P a) then 1 else 0).
Proof.
  rewrite filter_app, length_app, filter_cons, filter_nil.
  destruct (decide (P a)); reflexivity.
Qed.

Lemma callbacks_step (e : event) (s : t) :
  onOpenCalls (step e s) + opening (step e s)
    <= onOpenCalls s + opening s + open_calls [e] /\
  onCloseCalls (step e s) + closing_animations (step e s)
    <= onCloseCalls s + closing_animations s + close_calls [e].
Proof.
  unfold opening, closing_animations, open_calls, close_calls.
  destruct e as [| | |n]; cbn [step].
  - unfold open. destruct (isVisible s || isClosing s); cbn; [lia|].
    rewrite !count_snoc. repeat case_decide; try congruence; cbn; lia.
  - unfold close. destruct (negb (isVisible s) || isClosing s); cbn; [lia|].
    rewrite !count_snoc. repeat case_decide; try congruence; cbn; lia.
  - cbn. lia.
  - unfold finish. destruct (animations s !! n) as [a|] eqn:Hn; [|cbn; lia].
    pose proof (count_delete (fun a => a = OpenAnimation) _ _ _ Hn) as Ho.
    pose proof (count_delete (fun a => a = CloseAnimation) _ _ _ Hn) as Hc.
    destruct a; repeat case_decide; try congruence; cbn in *; lia.
Qed.

(** X3: callbacks follow calls.  Over any sequence of calls, renders and
    animation ends, the calls of [onOpen] made plus the opening animations
    still running grow by at most the number of [open()] calls, and the
    same holds for [onClose], the closing animations and [close()]. *)
Theorem callbacks_at_most_once_per_call (es : list event) (s : t) :
  onOpenCalls (run es s) + opening (run es s)
    <= onOpenCalls s + opening s + open_calls es /\
  onCloseCalls (run es s) + closing_animations (run es s)
    <= onCloseCalls s + closing_animations s + close_calls es.
Proof.
  revert s. induction es as [|e es IH]; intros s; [cbn; lia|].
  change (run (e :: es) s) with (run es (step e s)).
  destruct (IH (step e s)) as [IHo IHc].
  destruct (callbacks_step e s) as [So Sc].
  assert (Eo : open_calls (e :: es) = open_calls [e] + open_calls es).
  { unfold open_calls. rewrite !filter_cons, filter_nil.
    destruct (decide (e = EvOpen)); reflexivity. }
  assert (Ec : close_calls (e :: es) = close_calls [e] + close_calls es).
  { unfold close_calls. rewrite !filter_cons, filter_nil.
    destruct (decide (e = EvClose)); reflexivity. }
  lia.
Qed.



(** *** Stacking *)

Lemma renders_snoc (rs : list sheet_render) (r : sheet_render) (z : stacking) :
  renders (rs ++ [r]) z = rendered r (renders rs z).
Proof. unfold renders. now rewrite fold_left_app. Qed.

Lemma stacking_invariant (rs : list sheet_render) :
  let z := renders rs no_sheets in
  (99999 <= sheetZIndexCounter z)%N /\
  (forall a za, sheetZIndex z !! a = Some za ->
     (99999 <= za)%N /\ (za < sheetZIndexCounter z)%N) /\
  (forall a b za zb, a < b -> sheetZIndex z !! a = Some za ->
     sheetZIndex z !! b = Some zb -> (za < zb)%N).
Proof.
  induction rs as [|r rs IH] using rev_ind.
  - cbn. split; [lia|]. split; intros *; rewrite ?lookup_nil; discriminate.
  - rewrite renders_snoc. cbv zeta in IH.
    destruct IH as (I1 & I2 & I3). destruct r; cbn.
    + split; [lia|]. split.
      * intros a za Ha. apply lookup_app_Some in Ha as [Ha|[_ Ha]].
        -- destruct (I2 a za Ha). lia.
        -- apply list_lookup_singleton_Some in Ha as [_ <-]. lia.
      * intros a b za zb Hab Ha Hb.
        apply lookup_app_Some in Hb as [Hb|[Hlen Hb]].
        -- assert (Ha' : sheetZIndex (renders rs no_sheets) !! a = Some za).
           { apply lookup_app_Some in Ha as [Ha|[Hl _]]; [exact Ha|].
             apply lookup_lt_Some in Hb. lia. }
           exact (I3 a b za zb Hab Ha' Hb).
        -- apply list_lookup_singleton_Some in Hb as [Hb <-].
           assert (Ha' : sheetZIndex (renders rs no_sheets) !! a = Some za).
           { apply lookup_app_Some in Ha as [Ha|[Hl _]]; [exact Ha|]. lia. }
           now destruct (I2 a za Ha').
    + split; [lia|]. split; [|exact I3].
      intros a za Ha. destruct (I2 a za Ha). lia.
Qed.

(** X5: whatever the renders, a unit that mounted later has a strictly
    greater [sheetZIndex] than one that mounted earlier, inline container
    included, and no unit is below 99999. *)
Theorem later_sheets_stack_higher
    (rs : list sheet_render) (a b : nat) (za zb : N) :
  let z := renders rs no_sheets in
  a < b ->
  sheetZIndex z !! a = Some za ->
  sheetZIndex z !! b = Some zb ->
  (99999 <= za)%N /\ (za < zb)%N /\
  (directContainerZIndex za < directContainerZIndex zb)%N.
Proof.
  intros z Hab Ha Hb.
  destruct (stacking_invariant rs) as (_ & I2 & I3). fold z in I2, I3.
  pose proof (I3 a b za zb Hab Ha Hb). destruct (I2 a za Ha).
  unfold directContainerZIndex. lia.
Qed.

Lemma later_sheets_stack_higher_witness :
  sheetZIndex (renders [MountRender; LaterRender; LaterRender; MountRender] no_sheets)
    = [99999; 100002]%N /\
  (99999 < 100002)%N /\ (directContainerZIndex 99999 < directContainerZIndex 100002)%N.
Proof.
  split; [reflexivity|].
  exact (proj2 (later_sheets_stack_higher
                  [MountRender; LaterRender; LaterRender; MountRender] 0 1
                  99999%N 100002%N (Nat.lt_0_succ 0) eq_refl eq_refl)).
Defined.

End ActionSheetMore.

(** * More on the manager *)

Section ManagerMore.

Import SheetManager.

Implicit Types (w : world) (i : string) (snapshot : gmap string SheetInstance).

(** *** The updaters of the directory *)

Lemma same_ref_true (a : reference) (r : nat) :
  same_ref a r = true -> a = RefObject r.
Proof.
  destruct a as [n|]; cbn; [|discriminate].
  intros H. apply Nat.eqb_eq in H. now subst.
Qed.

Lemma js_or_truthy (a : jsval) : truthy (js_or a empty_object) = true.
Proof. unfold js_or. destruct (truthy a) eqn:E; [exact E | reflexivity]. Qed.

Lemma js_or_twice (a : jsval) :
  js_or (js_or a empty_object) empty_object = js_or a empty_object.
Proof. unfold js_or at 1. now rewrite js_or_truthy. Qed.

(** X6: [registerSheetInstance] always leaves the id with the given ref.
    The open flag of an entry already there is kept when it is a boolean,
    and is [false] when it was [undefined] under another ref; its payload
    is kept when it is truthy; a new entry is closed with [{}]; registering the ref the entry
    already has changes nothing at all; no other id is touched. *)
Theorem registerSheetInstance_keeps_entry
    (registered : gmap string nat) (prev : gmap string SheetInstance) i (r : nat) :
  let m := apply_sheets_update registered (RegisterUpdate i r) prev in
  (exists e, m !! i = Some e /\ ref e = r /\
     match prev !! i with
     | Some e0 =>
         ((forall b : bool, isOpen e0 = b -> isOpen e = b) /\
          (isOpen e0 = JUndefined -> ref e0 <> r -> isOpen e = false)) /\
         (truthy (props e0) = true -> props e = props e0) /\
         (ref e0 = r -> m = prev)
     | None => e = Instance i r empty_object false
     end) /\
  (forall j, j <> i -> m !! j = prev !! j).
Proof.
  cbn. destruct (prev !! i) as [e0|] eqn:Hi.
  - destruct (same_ref (ref e0) r) eqn:Hr.
    + apply same_ref_true in Hr. split; [|reflexivity].
      exists e0. rewrite Hi. repeat split; auto. now intros _ [].
    + split.
      * eexists. rewrite lookup_insert_eq. split; [reflexivity|]. cbn.
        split; [reflexivity|]. split; [split|].
        -- intros b ->. now destruct b.
        -- now intros -> _.
        -- split; [unfold js_or; now intros ->|].
           intros E. rewrite E in Hr. cbn in Hr.
           now rewrite Nat.eqb_refl in Hr.
      * intros j Hj. now rewrite lookup_insert_ne.
  - split.
    + eexists. rewrite lookup_insert_eq. eauto.
    + intros j Hj. now rewrite lookup_insert_ne.
Qed.

(** A flag that is [undefined], as [updateSheetProps] leaves it on an
    inherited name, is not kept by a registration: it becomes [false]. *)
Lemma registerSheetInstance_defines_the_flag :
  let prev := apply_sheets_update ∅ (PropsUpdate "toString" JNull) ∅ in
  prev !! "toString" = Some (Instance "toString" RefUndefined JNull JUndefined) /\
  apply_sheets_update ∅ (RegisterUpdate "toString" 5) prev !! "toString"
  = Some (Instance "toString" 5 empty_object false).
Proof. cbv zeta. split; reflexivity. Qed.

Lemma registerSheetInstance_keeps_entry_witness :
  let prev := {[ "s1" := Instance "s1" 3 (payload (JNum 1)) true ]} in
  apply_sheets_update ∅ (RegisterUpdate "s1" 5) prev !! "s1"
    = Some (Instance "s1" 5 (payload (JNum 1)) true) /\
  apply_sheets_update ∅ (RegisterUpdate "s1" 3) prev = prev.
Proof.
  cbv zeta. split; [reflexivity|].
  destruct (registerSheetInstance_keeps_entry ∅
              {[ "s1" := Instance "s1" 3 (payload (JNum 1)) true ]} "s1" 3)
    as [(e & _ & _ & H) _].
  exact (proj2 (proj2 H) eq_refl).
Defined.

(** X7: [unregisterSheetInstance] removes the entry, whatever it was:
    after a registration it gives the directory without the id, which is
    the directory as it was when the id had no entry; for an id without
    entry it changes nothing. *)
Theorem unregisterSheetInstance_removes
    (registered : gmap string nat) (prev : gmap string SheetInstance) i (r : nat) :
  apply_sheets_update registered (UnregisterUpdate i)
    (apply_sheets_update registered (RegisterUpdate i r) prev) = delete i prev /\
  apply_sheets_update registered (UnregisterUpdate i) prev !! i = None /\
  (prev !! i = None ->
   apply_sheets_update registered (UnregisterUpdate i) prev = prev /\
   apply_sheets_update registered (UnregisterUpdate i)
     (apply_sheets_update registered (RegisterUpdate i r) prev) = prev).
Proof.
  assert (H : apply_sheets_update registered (UnregisterUpdate i)
                (apply_sheets_update registered (RegisterUpdate i r) prev)
              = delete i prev).
  { cbn. destruct (prev !! i) as [e0|]; [destruct (same_ref (ref e0) r)|];
      try reflexivity; apply delete_insert_eq. }
  split; [exact H|]. split; [apply lookup_delete_eq|].
  intros Hn. rewrite H. cbn. split; now apply delete_id.
Qed.

Lemma unregisterSheetInstance_removes_witness :
  apply_sheets_update ∅ (UnregisterUpdate "s1")
    (apply_sheets_update ∅ (RegisterUpdate "s1" 4) ∅) = ∅.
Proof.
  exact (proj2 (proj2 (proj2 (unregisterSheetInstance_removes ∅ ∅ "s1" 4))
                  eq_refl)).
Defined.

(** X8: for an id with an entry, [updateSheetProps] replaces the payload,
    falsy values included, and keeps the ref and the open flag.  For an id
    without entry the directory is unchanged when the id names no inherited
    property; when it names one, the test [!prev[id]] lets it through and
    an entry is created whose ref and open flag are [undefined].  No other
    id is touched. *)
Theorem updateSheetProps_replaces_payload
    (registered : gmap string nat) (prev : gmap string SheetInstance) i (p : jsval) :
  let m := apply_sheets_update registered (PropsUpdate i p) prev in
  (prev !! i = None -> inherited i = false -> m = prev) /\
  (prev !! i = None -> inherited i = true -> i <> "__proto__" ->
     m = <[i := Instance i RefUndefined p JUndefined]> prev) /\
  (forall e, prev !! i = Some e -> m !! i = Some (Instance i (ref e) p (isOpen e))) /\
  (forall j, j <> i -> m !! j = prev !! j).
Proof.
  cbn. destruct (prev !! i) as [e0|] eqn:Hi.
  - split; [discriminate|]. split; [discriminate|]. split.
    + intros e [= <-]. apply lookup_insert_eq.
    + intros j Hj. now rewrite lookup_insert_ne.
  - destruct (inherited i) eqn:Hn.
    + split; [discriminate|]. split; [reflexivity|]. split; [discriminate|].
      intros j Hj. now rewrite lookup_insert_ne.
    + split; [reflexivity|]. split; [discriminate|].
      split; [discriminate | reflexivity].
Qed.

Lemma updateSheetProps_replaces_payload_witness :
  apply_sheets_update ∅ (PropsUpdate "s1" JNull) ∅ = ∅ /\
  apply_sheets_update ∅ (PropsUpdate "toString" JNull) ∅
  = {[ "toString" := Instance "toString" RefUndefined JNull JUndefined ]} /\
  apply_sheets_update ∅ (PropsUpdate "s1" JNull)
    {[ "s1" := Instance "s1" 3 (payload (JNum 1)) true ]} !! "s1"
  = Some (Instance "s1" 3 JNull true).
Proof.
  split; [|split].
  - exact (proj1 (updateSheetProps_replaces_payload ∅ ∅ "s1" JNull)
             eq_refl eq_refl).
  - refine (proj1 (proj2 (updateSheetProps_replaces_payload ∅ ∅ "toString" JNull))
              eq_refl eq_refl _).
    discriminate.
  - exact (proj1 (proj2 (proj2 (updateSheetProps_replaces_payload ∅
                           {[ "s1" := Instance "s1" 3 (payload (JNum 1)) true ]}
                           "s1" JNull))) _ eq_refl).
Defined.

Lemma apply_sheets_updates_snoc (registered : gmap string nat)
    (us : list sheets_update) (u : sheets_update) (m : gmap string SheetInstance) :
  apply_sheets_updates registered (us ++ [u]) m
  = apply_sheets_update registered u (apply_sheets_updates registered us m).
Proof. unfold apply_sheets_updates. now rewrite fold_left_app. Qed.

Lemma show_accepted w snapshot i (p : jsval) :
  contextSheetOpener w = Some snapshot ->
  (is_Some (snapshot !! i) \/ is_Some (registeredSheets w !! i))
  \/ inherited i = true ->
  show i p w
  = (nextPromise w,
     World (registeredSheets w) (contextSheetOpener w) (contextSheetCloser w)
           (sheets w) (sheetUpdates w ++ [OpenUpdate i p (nextRef w)])
           (<[i := nextPromise w]> (sheetPromises w))
           (<[nextPromise w := Pending]> (promises w)) (S (nextPromise w))
           (refs w) (S (nextRef w))
           (timers w ++ [Timer 50 FirstAttempt i snapshot (nextPromise w)])
           (uncaught w)).
Proof.
  intros Ho Hk. rewrite <- (openSheet_known snapshot i p w Hk).
  unfold show. now rewrite Ho.
Qed.

(** X9: an accepted [show] replaces the payload and keeps the handle.
    If the next render would have an entry for the id, then after the
    [show] it has that entry with the same ref, [props || {}] as payload
    and [isOpen = true]. *)
Theorem show_keeps_ref_of_entry w snapshot i (p : jsval) (e : SheetInstance) :
  contextSheetOpener w = Some snapshot ->
  is_Some (snapshot !! i) \/ is_Some (registeredSheets w !! i) ->
  sheets (render w) !! i = Some e ->
  sheets (render (show i p w).2) !! i
  = Some (Instance i (ref e) (js_or p empty_object) true).
Proof.
  intros Ho Hk He. rewrite (show_accepted w snapshot i p Ho (or_introl Hk)). cbn [snd].
  rewrite sheets_render in He |- *. cbn [registeredSheets sheetUpdates sheets].
  rewrite apply_sheets_updates_snoc. cbn. rewrite He. apply lookup_insert_eq.
Qed.

Lemma show_keeps_ref_of_entry_witness :
  let w := run [OpRegister "s1" 7; OpRender; OpMountWrapper "s1"; OpRender] initial in
  sheets (render (show "s1" JNull w).2) !! "s1"
  = Some (Instance "s1" 0 empty_object true).
Proof.
  cbv zeta.
  refine (show_keeps_ref_of_entry
            (run [OpRegister "s1" 7; OpRender; OpMountWrapper "s1"; OpRender] initial)
            _ "s1" JNull (Instance "s1" 0 empty_object false) eq_refl _ eq_refl).
  left. vm_compute. eauto.
Defined.

(** X10: a [show] before the wrapper has registered loses nothing.  For a
    registered id without entry, [show] makes a placeholder; when the
    wrapper then registers its own ref, the next render has the entry with
    the wrapper's ref, the payload of the [show] and [isOpen = true]. *)
Theorem mount_after_show_keeps_payload w snapshot i (p : jsval) :
  contextSheetOpener w = Some snapshot ->
  is_Some (registeredSheets w !! i) ->
  sheets (render w) !! i = None ->
  sheets (render (mountSheetWrapper i (show i p w).2)) !! i
  = Some (Instance i (S (nextRef w)) (js_or p empty_object) true).
Proof.
  intros Ho Hreg Hn.
  rewrite (show_accepted w snapshot i p Ho (or_introl (or_intror Hreg))). cbn [snd].
  unfold mountSheetWrapper. cbn [registeredSheets]. destruct Hreg as [c Hc].
  rewrite Hc. cbn [new_ref nextRef registerSheetInstance].
  rewrite sheets_render in Hn |- *. unfold apply_sheets_updates in Hn |- *.
  cbn. rewrite <- !app_assoc, fold_left_app. cbn.
  rewrite Hn, Hc. destruct (inherited i); rewrite lookup_insert_eq; cbn.
  - rewrite lookup_insert_eq, js_or_twice. reflexivity.
  - destruct (Nat.eqb_spec (nextRef w) (S (nextRef w))) as [E|_]; [lia|].
    rewrite lookup_insert_eq, js_or_twice. reflexivity.
Qed.

Lemma mount_after_show_keeps_payload_witness :
  let w := run [OpRegister "s1" 7; OpRender] initial in
  sheets (render (mountSheetWrapper "s1" (show "s1" (payload (JNum 1)) w).2)) !! "s1"
  = Some (Instance "s1" 1 (payload (JNum 1)) true).
Proof.
  cbv zeta.
  refine (mount_after_show_keeps_payload
            (run [OpRegister "s1" 7; OpRender] initial) _ "s1" (payload (JNum 1))
            eq_refl _ eq_refl).
  vm_compute. eauto.
Defined.

(** *** Invariants of runs, continued *)

Lemma promises_settle (q : nat) (st : promise_state) w :
  promises (settle q st w) = settled_map (promises w) q st /\
  nextPromise (settle q st w) = nextPromise w /\
  contextSheetCloser (settle q st w) = contextSheetCloser w.
Proof.
  unfold settle, settled_map. now destruct (promises w !! q) as [[| |]|].
Qed.

Lemma closeSheet_promises snapshot i (result : jsval) w :
  let w' := closeSheet snapshot i result w in
  promise_step (promises w) (promises w') (nextPromise w) (nextPromise w') /\
  contextSheetCloser w' = contextSheetCloser w.
Proof.
  assert (Hbody :
    let w' := match close_handle snapshot i w with
              | Normal w1 =>
                  let w2 := setSheets (CloseUpdate i) w1 in
                  match settle_stored i (Resolved result) w2 with
                  | Normal w3 => w3
                  | Throw error => closeSheet_catch i error w2
                  end
              | Throw error => closeSheet_catch i error w
              end in
    promise_step (promises w) (promises w') (nextPromise w) (nextPromise w') /\
    contextSheetCloser w' = contextSheetCloser w).
  { cbv zeta. unfold closeSheet_catch, settle_stored, promise_step.
    destruct (close_handle snapshot i w) as [w1|err] eqn:Hc.
    - destruct (close_handle_normal _ _ _ _ Hc) as [rs ->]. cbn.
      destruct (sheetPromises w !! i) as [pr|] eqn:Hi;
        [|destruct (inherited i); cbn; rewrite ?Hi; cbn; tauto].
      destruct (promises_settle pr (Resolved result)
                  (setSheets (CloseUpdate i) (set_refs rs w))) as (P1 & P2 & P3).
      cbn. rewrite P1, P2, P3. cbn. split; [|reflexivity].
      right. left. eauto.
    - destruct (sheetPromises w !! i) as [pr|];
        [|destruct (inherited i); cbn; tauto].
      destruct (promises_settle pr (Rejected err) w) as (P1 & P2 & P3).
      cbn. rewrite P1, P2, P3. split; [|reflexivity].
      right. left. eauto. }
  unfold closeSheet. destruct (snapshot !! i) as [e|]; [exact Hbody|].
  destruct (inherited i); [exact Hbody | unfold promise_step; cbn; tauto].
Qed.

Lemma run_timer_promises (t : timer) w :
  let w' := run_timer t w in
  promise_step (promises w) (promises w') (nextPromise w) (nextPromise w') /\
  contextSheetCloser w' = contextSheetCloser w.
Proof.
  unfold run_timer, promise_step.
  destruct (current_handle (timer_sheets t) (timer_id t) w) as [[r h]|].
  - destruct (call_open h) as [h'|err]; [cbn; tauto|].
    destruct (stage t); [|cbn; tauto].
    destruct (promises_settle (timer_promise t) (Rejected err) w) as (P1 & P2 & P3).
    unfold reject. rewrite P1, P2, P3. split; [|reflexivity]. right. left. eauto.
  - destruct (stage t); [cbn; tauto|].
    destruct (promises_settle (timer_promise t)
                (Rejected (JStr (ref_not_available (timer_id t)))) w) as (P1 & P2 & P3).
    unfold reject. rewrite P1, P2, P3. split; [|reflexivity]. right. left. eauto.
Qed.

Lemma exec_keeps_closures (o : op) w :
  o <> OpRender ->
  contextSheetOpener (exec o w) = contextSheetOpener w /\
  contextSheetCloser (exec o w) = contextSheetCloser w /\
  sheets (exec o w) = sheets w.
Proof.
  intros Hr.
  destruct o as [i c|i p|i result| |n|i|i|i p|r h|r|r e]; cbn [exec];
    try contradiction; try (repeat split; reflexivity).
  - destruct (show_cases w i p) as [[e ->]|(snapshot & Ho & Hk)].
    + repeat split; reflexivity.
    + rewrite (show_accepted w snapshot i p Ho Hk). repeat split; reflexivity.
  - unfold hide. destruct (contextSheetCloser w) as [snapshot|] eqn:Hc;
      [|repeat split; auto].
    pose proof (closeSheet_fields snapshot i result w) as F.
    pose proof (closeSheet_promises snapshot i result w) as G.
    cbv zeta in F, G. destruct F as (_ & F2 & F3 & _). destruct G as [_ G].
    rewrite F2, F3, G. auto.
  - unfold fire. destruct (timers w !! n) as [t|]; [|repeat split; reflexivity].
    pose proof (run_timer_fields t (set_timers (delete n (timers w)) w)) as F.
    pose proof (run_timer_promises t (set_timers (delete n (timers w)) w)) as G.
    cbv zeta in F, G. destruct F as (_ & F2 & F3 & _). destruct G as [_ G].
    rewrite F2, F3, G. repeat split; reflexivity.
  - unfold mountSheetWrapper. destruct (registeredSheets w !! i);
      repeat split; reflexivity.
  - destruct (refs w !! r) as [[u|? ?]|]; repeat split; reflexivity.
Qed.

Lemma render_or_not (o : op) : o = OpRender \/ o <> OpRender.
Proof. destruct o; (now left) || (right; discriminate). Qed.

Lemma closures_run (os : list op) : closures_of_last_render (run os initial).
Proof.
  induction os as [|o os IH] using rev_ind.
  - split; [reflexivity | discriminate].
  - rewrite run_snoc. destruct (render_or_not o) as [->|Hne].
    + split; [reflexivity|]. cbn. now intros snapshot [= <-].
    + destruct (exec_keeps_closures o (run os initial) Hne) as (E1 & E2 & E3).
      destruct IH as [I1 I2]. split; rewrite E1, ?E2, ?E3; auto.
Qed.

(** X12: between renders the closures and the state agree.  In any run
    from the start, the opener and the closer stored by the provider are
    both null or both those of the last render, and the [sheets] they read
    is the provider's current state; queued updates are what they miss. *)
Theorem closures_read_last_render (os : list op) :
  let w := run os initial in
  contextSheetOpener w = contextSheetCloser w /\
  (contextSheetOpener w = None \/ contextSheetOpener w = Some (sheets w)) /\
  render (render w) = render w.
Proof.
  cbv zeta. destruct (closures_run os) as [C1 C2]. split; [exact C1|]. split.
  - destruct (contextSheetOpener (run os initial)) as [snapshot|] eqn:Ho; [|now left].
    right. now rewrite (C2 snapshot eq_refl).
  - reflexivity.
Qed.

Lemma keyed_update (registered : gmap string nat) (u : sheets_update)
    (m : gmap string SheetInstance) :
  keyed m -> keyed (apply_sheets_update registered u m).
Proof.
  intros Hm j e.
  assert (Hins : forall e0 : SheetInstance, id e0 = k_of u ->
            <[k_of u := e0]> m !! j = Some e -> id e = j).
  { intros e0 He0. destruct (decide (k_of u = j)) as [<-|Hne].
    - rewrite lookup_insert_eq. now intros [= <-].
    - rewrite lookup_insert_ne by exact Hne. apply Hm. }
  destruct u as [k r|k|k q|k q r|k]; cbn in Hins |- *.
  - destruct (m !! k) as [e0|] eqn:Hk;
      [destruct (same_ref (ref e0) r); [apply Hm|]|]; now apply Hins.
  - destruct (decide (k = j)) as [<-|Hne].
    + now rewrite lookup_delete_eq.
    + rewrite lookup_delete_ne by exact Hne. apply Hm.
  - destruct (m !! k) as [e0|] eqn:Hk;
      [|destruct (inherited k); [|apply Hm]]; now apply Hins.
  - destruct (m !! k) as [e0|] eqn:Hk;
      [|destruct (inherited k); [|destruct (registered !! k); [|apply Hm]]];
      now apply Hins.
  - destruct (m !! k) as [e0|] eqn:Hk;
      [|destruct (inherited k); [|apply Hm]]; now apply Hins.
Qed.

Lemma keyed_updates (registered : gmap string nat) (us : list sheets_update)
    (m : gmap string SheetInstance) :
  keyed m -> keyed (apply_sheets_updates registered us m).
Proof.
  revert m. induction us as [|u us IH]; intros m Hm; [exact Hm|].
  cbn. apply IH. now apply keyed_update.
Qed.

Lemma keyed_run (os : list op) : keyed (sheets (run os initial)).
Proof.
  induction os as [|o os IH] using rev_ind.
  - intros j e. cbn. now rewrite lookup_empty.
  - rewrite run_snoc. destruct (render_or_not o) as [->|Hne].
    + cbn [exec]. rewrite sheets_render. now apply keyed_updates.
    + destruct (exec_keeps_closures o (run os initial) Hne) as (_ & _ & ->).
      exact IH.
Qed.

(** X13: in any run from the start, every entry of the directory, in the
    provider's state and in the [sheets] read by [openSheet] and
    [closeSheet], carries as [id] the key it is stored under. *)
Theorem entry_id_is_its_key (os : list op) (j : string) (e : SheetInstance) :
  let w := run os initial in
  sheets w !! j = Some e \/
  (exists snapshot, contextSheetCloser w = Some snapshot /\ snapshot !! j = Some e) ->
  id e = j.
Proof.
  cbv zeta. intros [H|(snapshot & Hc & H)].
  - exact (keyed_run os j e H).
  - destruct (closures_run os) as [C1 C2]. rewrite <- C1 in Hc.
    rewrite (C2 snapshot Hc) in H. exact (keyed_run os j e H).
Qed.

Lemma entry_id_is_its_key_witness :
  id (Instance "s1" 0 (payload (JNum 1)) true) = "s1".
Proof.
  apply (entry_id_is_its_key
           [OpRegister "s1" 7; OpRender; OpMountWrapper "s1"; OpRender;
            OpShow "s1" (payload (JNum 1)); OpRender]).
  left. reflexivity.
Defined.

(** *** [closeSheet] with a handle *)

Lemma current_handle_some snapshot i (e : SheetInstance) (h : handle) w :
  snapshot !! i = Some e -> refs w !! ref e = Some h ->
  exists r : nat, ref e = RefObject r /\ current_handle snapshot i w = Some (r, h).
Proof.
  intros Hs Hr. unfold current_handle. rewrite Hs.
  destruct (ref e) as [r|]; [|discriminate].
  change (refs w !! r = Some h) in Hr. rewrite Hr. eauto.
Qed.

(** X14: when [close()] on the handle throws, [hide] does not throw: the
    stored pending promise is rejected with the error thrown and removed
    from [sheetPromises]; no update is queued, so [isOpen] of the entry
    stays as it is. *)
Theorem hide_rejects_when_close_throws
    w snapshot i (e : SheetInstance) (h : handle) (error result : jsval) (pr : nat) :
  contextSheetCloser w = Some snapshot ->
  snapshot !! i = Some e ->
  refs w !! ref e = Some h ->
  call_close h = Throw error ->
  sheetPromises w !! i = Some pr ->
  promises w !! pr = Some Pending ->
  let w' := hide i result w in
  promises w' !! pr = Some (Rejected error) /\
  sheetPromises w' !! i = None /\
  sheetUpdates w' = sheetUpdates w /\
  sheets (render w') = sheets (render w) /\
  refs w' = refs w /\
  uncaught w' = uncaught w.
Proof.
  intros Hc Hs Hr Ht Hi Hp. unfold hide. rewrite Hc.
  destruct (current_handle_some _ _ _ _ _ Hs Hr) as (r & _ & Hh).
  unfold closeSheet, close_handle, closeSheet_catch, settle_stored.
  rewrite Hs, Hh, Ht, Hi.
  destruct (settle_pending w pr (Rejected error) Hp)
    as (S1 & _ & (_ & _ & _ & S4 & S5 & _ & S7 & _ & _ & S10) & _).
  cbn. rewrite lookup_delete_eq.
  assert (Hreg : registeredSheets (settle pr (Rejected error) w) = registeredSheets w)
    by (unfold settle; now destruct (promises w !! pr) as [[| |]|]).
  repeat split; auto. rewrite Hreg, S4, S5. reflexivity.
Qed.

Lemma hide_rejects_when_close_throws_witness :
  let w := run [OpRegister "s1" 7; OpRender; OpMountWrapper "s1"; OpRender;
                OpAttach 0 (HOther None (Some (JStr "boom")));
                OpShow "s1" JNull; OpRender] initial in
  promises (hide "s1" (JNum 1) w) !! 0 = Some (Rejected (JStr "boom")) /\
  sheetPromises (hide "s1" (JNum 1) w) !! "s1" = None /\
  sheetUpdates (hide "s1" (JNum 1) w) = [].
Proof.
  cbv zeta.
  pose proof (hide_rejects_when_close_throws
                (run [OpRegister "s1" 7; OpRender; OpMountWrapper "s1"; OpRender;
                      OpAttach 0 (HOther None (Some (JStr "boom")));
                      OpShow "s1" JNull; OpRender] initial)
                _ "s1" _ _ (JStr "boom") (JNum 1) 0
                eq_refl eq_refl eq_refl eq_refl eq_refl eq_refl) as H.
  cbv zeta in H. destruct H as (H1 & H2 & H3 & _).
  split; [exact H1 | split; [exact H2 | exact H3]].
Defined.

(** X15: with the handle of an [ActionSheet] in the ref, [hide] calls
    [close] on that unit, queues the update that clears [isOpen], removes
    the id from [sheetPromises] and resolves the stored pending promise
    with the result. *)
Theorem hide_closes_the_sheet
    w snapshot i (e : SheetInstance) (s : ActionSheet.t) (result : jsval) :
  contextSheetCloser w = Some snapshot ->
  snapshot !! i = Some e ->
  refs w !! ref e = Some (HSheet s) ->
  let w' := hide i result w in
  refs w' = <[ref e := HSheet (ActionSheet.close s)]> (refs w) /\
  sheetUpdates w' = sheetUpdates w ++ [CloseUpdate i] /\
  sheetPromises w' !! i = None /\
  (forall pr, sheetPromises w !! i = Some pr -> promises w !! pr = Some Pending ->
     promises w' !! pr = Some (Resolved result)).
Proof.
  intros Hc Hs Hr. unfold hide. rewrite Hc.
  destruct (current_handle_some _ _ _ _ _ Hs Hr) as (r & Er & Hh).
  pose proof (sheet_handle_close_returns _ _ _ _ _ Hh) as Ht.
  destruct (closeSheet_normal snapshot i e result w Hs Ht) as (rs & Hrs & ->).
  unfold close_handle in Hrs. rewrite Hh in Hrs. cbn in Hrs.
  assert (rs = <[ref e := HSheet (ActionSheet.close s)]> (refs w)) as ->.
  { rewrite Er. injection Hrs as Hrs. now symmetry. }
  pose proof (closed_normally_fields i result
                (<[ref e := HSheet (ActionSheet.close s)]> (refs w)) w) as F.
  cbv zeta in *. destruct F as (F1 & F2 & F3 & _).
  repeat split; auto.
  intros pr Hi Hp.
  pose proof (closed_normally_promise i result
                (<[ref e := HSheet (ActionSheet.close s)]> (refs w)) w pr Hi Hp) as H.
  cbv zeta in H. tauto.
Qed.

Lemma hide_closes_the_sheet_witness :
  let open := ActionSheet.commit (ActionSheet.open ActionSheet.initial) in
  let w := run [OpRegister "s1" 7; OpRender; OpMountWrapper "s1"; OpRender;
                OpAttach 0 (HSheet open); OpShow "s1" JNull; OpRender] initial in
  refs (hide "s1" (JNum 1) w) !! 0 = Some (HSheet (ActionSheet.close open)) /\
  ActionSheet.animations (ActionSheet.close open)
    = [ActionSheet.OpenAnimation; ActionSheet.CloseAnimation] /\
  promises (hide "s1" (JNum 1) w) !! 0 = Some (Resolved (JNum 1)).
Proof.
  cbv zeta.
  pose proof (hide_closes_the_sheet
                (run [OpRegister "s1" 7; OpRender; OpMountWrapper "s1"; OpRender;
                      OpAttach 0 (HSheet (ActionSheet.commit
                                            (ActionSheet.open ActionSheet.initial)));
                      OpShow "s1" JNull; OpRender] initial)
                _ "s1" _ _ (JNum 1) eq_refl eq_refl eq_refl) as H.
  cbv zeta in H. destruct H as (H1 & _ & _ & H4).
  split; [rewrite H1; reflexivity|]. split; [reflexivity|].
  apply (H4 0); reflexivity.
Defined.

(** *** The timers, continued *)

(** X16: the usual way.  When the [sheets] read by [openSheet] has an
    entry for the id whose ref holds the handle of an [ActionSheet], the
    first callback calls [open] on that unit; no retry is scheduled, and the
    promise stays pending in [sheetPromises] until a [hide]. *)
Theorem show_opens_the_sheet
    w snapshot i (p : jsval) (e : SheetInstance) (s : ActionSheet.t) :
  contextSheetOpener w = Some snapshot ->
  snapshot !! i = Some e ->
  refs w !! ref e = Some (HSheet s) ->
  let pr := (show i p w).1 in
  let w' := fire (length (timers w)) (show i p w).2 in
  refs w' = <[ref e := HSheet (ActionSheet.open s)]> (refs w) /\
  timers w' = timers w /\
  promises w' !! pr = Some Pending /\
  sheetPromises w' !! i = Some pr /\
  uncaught w' = uncaught w.
Proof.
  intros Ho Hs Hr.
  assert (Hk : (is_Some (snapshot !! i) \/ is_Some (registeredSheets w !! i))
               \/ inherited i = true)
    by (left; left; rewrite Hs; eauto).
  destruct (current_handle_some _ _ _ _ _ Hs Hr) as (r & Er & Hh).
  rewrite (show_accepted w snapshot i p Ho Hk). cbn [fst snd].
  set (t1 := Timer 50 FirstAttempt i snapshot (nextPromise w)).
  set (w1 := World _ _ _ _ _ _ _ _ _ _ _ _).
  assert (Ht1 : timers w1 = timers w ++ [t1]) by reflexivity.
  rewrite (fire_last w1 t1 (timers w) Ht1).
  unfold run_timer. cbn [timer_sheets timer_id stage timer_promise t1].
  rewrite (current_handle_refs snapshot i w (set_timers (timers w) w1) eq_refl), Hh.
  rewrite Er. cbn. rewrite !lookup_insert_eq. repeat split.
Qed.

Lemma show_opens_the_sheet_witness :
  let w := run [OpRegister "s1" 7; OpRender; OpMountWrapper "s1"; OpRender;
                OpAttach 0 (HSheet ActionSheet.initial)] initial in
  let w' := fire 0 (show "s1" JNull w).2 in
  refs w' !! 0 = Some (HSheet (ActionSheet.open ActionSheet.initial)) /\
  timers w' = [] /\ promises w' !! 0 = Some Pending.
Proof.
  cbv zeta.
  pose proof (show_opens_the_sheet
                (run [OpRegister "s1" 7; OpRender; OpMountWrapper "s1"; OpRender;
                      OpAttach 0 (HSheet ActionSheet.initial)] initial)
                _ "s1" JNull _ _ eq_refl eq_refl eq_refl) as H.
  cbv zeta in H. destruct H as (H1 & H2 & H3 & _).
  split; [|split; [exact H2 | exact H3]].
  exact (eq_trans (f_equal (fun m : gmap nat handle => m !! 0) H1) eq_refl).
Defined.

(** X17: the callbacks read the [sheets] of the render in which [show] was
    called.  When that [sheets] has no entry for a registered id, [show] is
    accepted, but both callbacks find no handle whatever has happened in the
    meantime (the wrapper mounted, the handle attached, the provider
    rendered): in any world the first schedules the retry, and in any world
    the retry rejects the promise, if it is still pending, with the
    ref-not-available message. *)
Theorem show_outside_directory_is_rejected
    w snapshot i (p : jsval) (w2 w3 : world) :
  contextSheetOpener w = Some snapshot ->
  snapshot !! i = None ->
  is_Some (registeredSheets w !! i) ->
  let pr := (show i p w).1 in
  let first := Timer 50 FirstAttempt i snapshot pr in
  let retry := Timer 100 Retry i snapshot pr in
  timers (show i p w).2 = timers w ++ [first] /\
  promises (show i p w).2 !! pr = Some Pending /\
  run_timer first w2 = set_timers (timers w2 ++ [retry]) w2 /\
  (promises w3 !! pr = Some Pending ->
   promises (run_timer retry w3) !! pr = Some (Rejected (JStr (ref_not_available i)))).
Proof.
  intros Ho Hs Hreg.
  rewrite (show_accepted w snapshot i p Ho (or_introl (or_intror Hreg))). cbn [fst snd].
  assert (Hnone : forall w', current_handle snapshot i w' = None)
    by (intros w'; unfold current_handle; now rewrite Hs).
  split; [reflexivity|]. split; [apply lookup_insert_eq|]. split.
  - now apply first_attempt_without_handle.
  - intros Hp. rewrite retry_without_handle by apply Hnone.
    now apply settle_pending.
Qed.

Lemma show_outside_directory_is_rejected_witness :
  let w := run [OpRegister "s1" 7; OpRender] initial in
  let pr := (show "s1" JNull w).1 in
  let w2 := run [OpMountWrapper "s1"; OpRender;
                 OpAttach 1 (HSheet ActionSheet.initial)] (show "s1" JNull w).2 in
  (exists e, sheets w2 !! "s1" = Some e /\ is_Some (refs w2 !! ref e)) /\
  promises (run_timer (Timer 100 Retry "s1" ∅ pr) w2) !! pr
  = Some (Rejected (JStr (ref_not_available "s1"))).
Proof.
  cbv zeta. split; [eexists; split; [reflexivity | vm_compute; eauto]|].
  refine (proj2 (proj2 (proj2
            (show_outside_directory_is_rejected
               (run [OpRegister "s1" 7; OpRender] initial) ∅ "s1" JNull initial
               (run [OpMountWrapper "s1"; OpRender;
                     OpAttach 1 (HSheet ActionSheet.initial)]
                  (show "s1" JNull (run [OpRegister "s1" 7; OpRender] initial)).2)
               eq_refl eq_refl _))) _).
  - vm_compute. eauto.
  - vm_compute. reflexivity.
Defined.

(** X18: an error thrown by [open()] is caught at the first attempt, which
    rejects the promise with it, and escapes at the retry, which leaves the
    promise as it was. *)
Theorem open_error_is_caught_at_first_attempt_only
    w snapshot i (e : SheetInstance) (h : handle) (error : jsval) (pr d : nat) :
  snapshot !! i = Some e ->
  refs w !! ref e = Some h ->
  call_open h = Throw error ->
  (promises w !! pr = Some Pending ->
   promises (run_timer (Timer d FirstAttempt i snapshot pr) w) !! pr
   = Some (Rejected error)) /\
  uncaught (run_timer (Timer d FirstAttempt i snapshot pr) w) = uncaught w /\
  promises (run_timer (Timer d Retry i snapshot pr) w) = promises w /\
  uncaught (run_timer (Timer d Retry i snapshot pr) w) = uncaught w ++ [error].
Proof.
  intros Hs Hr Ht. unfold run_timer. cbn [timer_sheets timer_id stage timer_promise].
  destruct (current_handle_some _ _ _ _ _ Hs Hr) as (r & _ & ->).
  rewrite Ht. repeat split.
  - intros Hp. now apply settle_pending.
  - destruct (settle_same w pr (Rejected error)) as (S1 & _). apply S1.
Qed.

Lemma open_error_is_caught_at_first_attempt_only_witness :
  let w := run [OpRegister "s1" 7; OpRender; OpMountWrapper "s1"; OpRender;
                OpAttach 0 (HOther (Some (JStr "boom")) None);
                OpShow "s1" JNull] initial in
  let snapshot := {[ "s1" := Instance "s1" 0 empty_object false ]} in
  promises (run_timer (Timer 50 FirstAttempt "s1" snapshot 0) w) !! 0
    = Some (Rejected (JStr "boom")) /\
  uncaught (run_timer (Timer 50 Retry "s1" snapshot 0) w) = uncaught w ++ [JStr "boom"].
Proof.
  cbv zeta.
  destruct (open_error_is_caught_at_first_attempt_only
              (run [OpRegister "s1" 7; OpRender; OpMountWrapper "s1"; OpRender;
                    OpAttach 0 (HOther (Some (JStr "boom")) None);
                    OpShow "s1" JNull] initial)
              {[ "s1" := Instance "s1" 0 empty_object false ]}
              "s1" (Instance "s1" 0 empty_object false)
              (HOther (Some (JStr "boom")) None) (JStr "boom") 0 50)
    as (H1 & _ & _ & H4).
  - reflexivity.
  - vm_compute. reflexivity.
  - reflexivity.
  - split; [apply H1; vm_compute; reflexivity | exact H4].
Defined.

(** X19: registration is enough for [show] to be accepted.  With a
    provider mounted, after [register(id, component)] a [show(id, props)]
    is not rejected: its promise is pending and stored under the id, and
    the next render has an entry for the id with [isOpen = true] and
    [props || {}] as payload, whether or not the id had an entry. *)
Theorem registered_id_is_shown w snapshot i (component : nat) (p : jsval) :
  contextSheetOpener w = Some snapshot ->
  let w1 := register i component w in
  let pr := (show i p w1).1 in
  let w2 := (show i p w1).2 in
  registeredSheets w1 !! i = Some component /\
  promises w2 !! pr = Some Pending /\
  sheetPromises w2 !! i = Some pr /\
  exists e, sheets (render w2) !! i = Some e /\ isOpen e = true /\
            props e = js_or p empty_object.
Proof.
  intros Ho w1.
  assert (Hreg : is_Some (registeredSheets w1 !! i))
    by (cbn; rewrite lookup_insert_eq; eauto).
  assert (Ho1 : contextSheetOpener w1 = Some snapshot) by exact Ho.
  cbv zeta. rewrite (show_accepted w1 snapshot i p Ho1 (or_introl (or_intror Hreg))). cbn [fst snd].
  split; [apply lookup_insert_eq|]. split; [apply lookup_insert_eq|].
  split; [apply lookup_insert_eq|].
  rewrite sheets_render. cbn [registeredSheets sheetUpdates sheets].
  rewrite apply_sheets_updates_snoc.
  destruct (open_update_opens (registeredSheets w1)
              (apply_sheets_updates (registeredSheets w1) (sheetUpdates w1) (sheets w1))
              i p (nextRef w1) Hreg) as (e & He & Hopen & Hprops).
  exists e. auto.
Qed.

Lemma registered_id_is_shown_witness :
  let w := render initial in
  let w2 := (show "s1" (payload (JNum 1)) (register "s1" 7 w)).2 in
  promises w2 !! 0 = Some Pending /\
  exists e, sheets (render w2) !! "s1" = Some e /\ isOpen e = true /\
            props e = js_or (payload (JNum 1)) empty_object.
Proof.
  cbv zeta.
  pose proof (registered_id_is_shown (render initial) ∅ "s1" 7 (payload (JNum 1))
                eq_refl) as H.
  cbv zeta in H. destruct H as (_ & H2 & _ & H4).
  split; [exact H2 | exact H4].
Defined.

End ManagerMore.
